(** * FrostKeyChain and ColdChainTracker: the append-only encrypted ledgers

    A shallow embedding of the two Solidity contracts of the repository,
    [FrostKeyChain] (contracts/FrostKeyChain.sol) and [ColdChainTracker],
    and the properties of their storage that the specification states.

    Conventions of the embedding:
    - [uint256], [uint64], [address], [bytes32] and the FHE handles
      ([euint64], [externalEuint64]) are values of [N]; the narrowing
      cast [uint64(x)] is written out as [x mod 2^64], checked arithmetic
      of Solidity 0.8 reverts with [Panic 0x11], an array access out of
      range with [Panic 0x32]; a storage array is a list, its [length] the
      length of the list, and a theorem that needs that length to fit in
      a word says so;
    - a function body is a computation in a state-and-revert monad; the
      state reached when a body reverts is kept by the monad, so that one
      can say how far the body got, and thrown away by [transact], which
      is what the EVM does with a reverted call;
    - the cryptographic and FHE libraries the contracts import are not
      part of the repository: they are the members of the class
      [Primitives], and every theorem holds for all of them. *)

From Stdlib Require Import NArith String Lia.
From Stdlib.Strings Require Import Byte.
From stdpp Require Import base option list gmap strings numbers sorting.

#[local] Open Scope N_scope.

(** ** The execution environment shared by the two contracts *)

Module Evm.

Abbreviation address := N (only parsing).
Abbreviation uint256 := N (only parsing).
Abbreviation uint64 := N (only parsing).
Abbreviation bytes32 := N (only parsing).
Abbreviation euint64 := N (only parsing).
Abbreviation externalEuint64 := N (only parsing).
Abbreviation bytes := (list byte) (only parsing).

(** [uint64(x)]: the explicit narrowing conversion keeps the low 64 bits. *)
Definition to_uint64 (x : uint256) : uint64 := x mod 2 ^ 64.

Definition MAX_UINT256 : N := 2 ^ 256 - 1.

(** The custom errors of OpenZeppelin's [ECDSA.recover]. *)
Inductive ecdsa_error : Type :=
| ECDSAInvalidSignature
| ECDSAInvalidSignatureLength (len : uint256)
| ECDSAInvalidSignatureS (s : bytes32).

(** Why a call reverted. *)
Inductive revert_reason : Type :=
| Error (msg : string)            (* require(cond, msg) with cond false *)
| ECDSAError (e : ecdsa_error)    (* raised inside ECDSA.recover *)
| InvalidInputProof               (* raised inside FHE.fromExternal *)
| Panic (code : N)                (* 0x11 arithmetic, 0x32 array index *)
| OutOfGas.

Inductive result (A : Type) : Type :=
| Ok (a : A)
| Revert (r : revert_reason).
Arguments Ok {A} a.
Arguments Revert {A} r.

Definition is_ok {A} (r : result A) : bool :=
  match r with Ok _ => true | Revert _ => false end.

(** The part of the transaction context the contracts read. *)
Record Env : Type := mkEnv {
  msg_sender : address;
  block_timestamp : uint256;
}.

(** The external libraries: hashing, signature recovery, FHE input
    verification. [FHE_fromExternal user handle proof] is [None] when
    the coprocessor rejects the proof. *)
Class Primitives : Type := {
  keccak256 : bytes -> bytes32;
  toEthSignedMessageHash : bytes32 -> bytes32;
  ECDSA_recover : bytes32 -> bytes -> ecdsa_error + address;
  FHE_fromExternal : address -> externalEuint64 -> bytes -> option euint64;
}.

(** What leaves the contract during a call, in program order. *)
Inductive Effect (Event : Type) : Type :=
| Call_recover (hash : bytes32) (signature : bytes)
| Call_fromExternal (user : address) (handle : externalEuint64) (proof : bytes)
| Call_allowThis (handle : euint64)
| Call_allow (handle : euint64) (account : address)
| Emit (ev : Event).
Arguments Call_recover {Event} hash signature.
Arguments Call_fromExternal {Event} user handle proof.
Arguments Call_allowThis {Event} handle.
Arguments Call_allow {Event} handle account.
Arguments Emit {Event} ev.

(** The state-and-revert monad. *)
Definition M (St A : Type) : Type := St -> result A * St.

Definition ret {St A} (a : A) : M St A := fun s => (Ok a, s).

Definition bind {St A B} (m : M St A) (k : A -> M St B) : M St B :=
  fun s =>
    match m s with
    | (Ok a, s') => k a s'
    | (Revert r, s') => (Revert r, s')
    end.

Definition revert {St A} (r : revert_reason) : M St A := fun s => (Revert r, s).

Definition gets {St A} (f : St -> A) : M St A := fun s => (Ok (f s), s).

Definition modify {St} (f : St -> St) : M St unit := fun s => (Ok tt, f s).

Definition require {St} (cond : bool) (msg : string) : M St unit :=
  if cond then ret tt else revert (Error msg).

(** A call from outside: the state a reverted body reached is dropped. *)
Definition transact {St A} (m : M St A) (s : St) : result A * St :=
  match m s with
  | (Ok a, s') => (Ok a, s')
  | (Revert r, _) => (Revert r, s)
  end.

(** Checked arithmetic on [uint256]. *)
Definition checked_add (a b : uint256) : result uint256 :=
  if a + b <=? MAX_UINT256 then Ok (a + b) else Revert (Panic 0x11).

Definition checked_sub (a b : uint256) : result uint256 :=
  if b <=? a then Ok (a - b) else Revert (Panic 0x11).

Definition lift {St A} (r : result A) : M St A := fun s => (r, s).

(** [a[i]] on a dynamic array. *)
Definition index {A} (a : list A) (i : uint256) : result A :=
  match a !! N.to_nat i with
  | Some x => Ok x
  | None => Revert (Panic 0x32)
  end.

(** [bytes(s).length] *)
Definition bytes_length (s : string) : uint256 :=
  N.of_nat (List.length (list_byte_of_string s)).

(** [abi.encode] of static 32-byte words: each word big-endian. *)
Fixpoint le_bytes (n : nat) (w : N) : bytes :=
  match n with
  | O => []
  | S n' =>
      match Byte.of_N (w mod 256) with
      | Some b => b
      | None => x00
      end :: le_bytes n' (w / 256)
  end.

Definition word32 (w : N) : bytes := rev (le_bytes 32 w).

Definition abi_encode (words : list N) : bytes := concat (map word32 words).

(** The error kinds of the specification, and the revert reasons of the
    two contracts that fall under each. *)
Inductive ErrorKind : Type :=
| ValidationError
| AuthorizationError
| InvalidCiphertextProof
| NotFound
| NotOwner
| StaleTimestamp
| RecoveryFailure      (* the recovery primitive rejected the signature *)
| Unexpected.          (* panics; no claim is about them *)

Definition is_one_of (msg : string) (msgs : list string) : bool :=
  existsb (String.eqb msg) msgs.

Definition classify (r : revert_reason) : ErrorKind :=
  match r with
  | Error msg =>
      if is_one_of msg ["Key name cannot be empty"; "Key name too long";
                        "Location cannot be empty";
                        "Cargo description cannot be empty"]%string
      then ValidationError
      else if is_one_of msg ["Invalid store signature";
                             "Invalid update signature";
                             "Invalid record signature"]%string
      then AuthorizationError
      else if is_one_of msg ["Key does not exist"; "Log does not exist"]%string
      then NotFound
      else if is_one_of msg ["Not the owner"]%string then NotOwner
      else if is_one_of msg ["Cannot update same timestamp"]%string
      then StaleTimestamp
      else Unexpected
  | ECDSAError _ => RecoveryFailure
  | InvalidInputProof => InvalidCiphertextProof
  | Panic _ => Unexpected
  | OutOfGas => Unexpected
  end.

End Evm.

Export Evm.

Declare Scope evm_scope.
Delimit Scope evm_scope with evm.
Notation "'let*' x ':=' m 'in' k" := (bind m (fun x => k))
  (at level 10, x name, m at level 100, k at level 200) : evm_scope.
Notation "m '>>' k" := (bind m (fun _ => k))
  (at level 100, k at level 200, right associativity) : evm_scope.

(** ** contracts/FrostKeyChain.sol *)

Module FrostKeyChain.

Record KeyEntry : Type := mkKeyEntry {
  owner : address;
  keyName : string;
  encryptedValue : euint64;
  createdAt : uint64;
  updatedAt : uint64;
}.

Inductive Event : Type :=
| KeyStored (id : uint256) (owner : address) (keyName : string) (createdAt : uint64)
| KeyUpdated (id : uint256) (owner : address) (keyName : string) (updatedAt : uint64).

(** The two storage variables, and the effects of the calls so far. *)
Record State : Type := mkState {
  _keys : list KeyEntry;
  _keysOf : gmap N (list N);
  effects : list (Effect Event);
}.

Definition init : State :=
  {| _keys := []; _keysOf := ∅; effects := [] |}.

(** [_keysOf[a]]: a mapping reads as the empty array where nothing was
    ever written. *)
Definition keysOf (s : State) (a : address) : list uint256 :=
  default [] (_keysOf s !! a).

Definition set_keys (f : list KeyEntry -> list KeyEntry) (s : State) : State :=
  {| _keys := f (_keys s); _keysOf := _keysOf s; effects := effects s |}.

Definition push_keysOf (a : address) (id : uint256) (s : State) : State :=
  {| _keys := _keys s;
     _keysOf := <[a := keysOf s a ++ [id]]> (_keysOf s);
     effects := effects s |}.

Definition log (e : Effect Event) (s : State) : State :=
  {| _keys := _keys s; _keysOf := _keysOf s; effects := effects s ++ [e] |}.

Definition with_encryptedValue (v : euint64) (e : KeyEntry) : KeyEntry :=
  {| owner := owner e; keyName := keyName e; encryptedValue := v;
     createdAt := createdAt e; updatedAt := updatedAt e |}.

Definition with_updatedAt (t : uint64) (e : KeyEntry) : KeyEntry :=
  {| owner := owner e; keyName := keyName e; encryptedValue := encryptedValue e;
     createdAt := createdAt e; updatedAt := t |}.

#[local] Open Scope evm_scope.

(** [_keys[id]] read from storage. *)
Definition keys_at (id : uint256) : M State KeyEntry :=
  fun s => (index (_keys s) id, s).

(** [_keys[id].field = ...]: the element is located first. *)
Definition keys_update (id : uint256) (f : KeyEntry -> KeyEntry) : M State unit :=
  let* e := keys_at id in
  modify (set_keys (fun ks => <[N.to_nat id := f e]> ks)).

Definition keys_length : M State uint256 :=
  gets (fun s => N.of_nat (length (_keys s))).

Section Code.
Context `{Primitives}.

Definition STORE_KEY_TYPEHASH : bytes32 :=
  keccak256 (list_byte_of_string "FrostKeyChain.store(address owner,string keyName)").

Definition UPDATE_KEY_TYPEHASH : bytes32 :=
  keccak256 (list_byte_of_string "FrostKeyChain.update(address owner,uint256 id)").

(** [ECDSA.recover(hash, signature)] *)
Definition recover (hash : bytes32) (signature : bytes) : M State address :=
  modify (log (Call_recover hash signature)) >>
  match ECDSA_recover hash signature with
  | inl e => revert (ECDSAError e)
  | inr signer => ret signer
  end.

(** [FHE.fromExternal(encValue, inputProof)] *)
Definition fromExternal (env : Env) (encValue : externalEuint64)
    (inputProof : bytes) : M State euint64 :=
  modify (log (Call_fromExternal (msg_sender env) encValue inputProof)) >>
  match FHE_fromExternal (msg_sender env) encValue inputProof with
  | None => revert InvalidInputProof
  | Some v => ret v
  end.

Definition store_digest (sender : address) (keyName : string) : bytes32 :=
  keccak256 (abi_encode [STORE_KEY_TYPEHASH; sender;
                         keccak256 (list_byte_of_string keyName)]).

Definition update_digest (sender : address) (id : uint256) : bytes32 :=
  keccak256 (abi_encode [UPDATE_KEY_TYPEHASH; sender; id]).

Definition _verifyStoreSignature (env : Env) (keyName : string)
    (signature : bytes) : M State unit :=
  let digest := store_digest (msg_sender env) keyName in
  let hash := toEthSignedMessageHash digest in
  let* signer := recover hash signature in
  require (signer =? msg_sender env) "Invalid store signature".

Definition _verifyUpdateSignature (env : Env) (id : uint256)
    (signature : bytes) : M State unit :=
  let digest := update_digest (msg_sender env) id in
  let hash := toEthSignedMessageHash digest in
  let* signer := recover hash signature in
  require (signer =? msg_sender env) "Invalid update signature".

Definition storeKey (env : Env) (keyName : string) (encValue : externalEuint64)
    (inputProof signature : bytes) : M State unit :=
  require (0 <? bytes_length keyName) "Key name cannot be empty" >>
  require (bytes_length keyName <=? 100) "Key name too long" >>
  _verifyStoreSignature env keyName signature >>
  let* encrypted := fromExternal env encValue inputProof in
  let entry :=
    {| owner := msg_sender env;
       keyName := keyName;
       encryptedValue := encrypted;
       createdAt := to_uint64 (block_timestamp env);
       updatedAt := to_uint64 (block_timestamp env) |} in
  modify (set_keys (fun ks => ks ++ [entry])) >>
  let* len := keys_length in
  let* id := lift (checked_sub len 1) in
  modify (push_keysOf (msg_sender env) id) >>
  let* e := keys_at id in
  modify (log (Call_allowThis (encryptedValue e))) >>
  let* e := keys_at id in
  modify (log (Call_allow (encryptedValue e) (msg_sender env))) >>
  modify (log (Emit (KeyStored id (msg_sender env) keyName (createdAt entry)))).

Definition updateKey (env : Env) (id : uint256) (encValue : externalEuint64)
    (inputProof signature : bytes) : M State unit :=
  let* len := keys_length in
  require (id <? len) "Key does not exist" >>
  let* e := keys_at id in
  require (owner e =? msg_sender env) "Not the owner" >>
  let* e := keys_at id in
  require (updatedAt e <? to_uint64 (block_timestamp env))
          "Cannot update same timestamp" >>
  _verifyUpdateSignature env id signature >>
  let* encrypted := fromExternal env encValue inputProof in
  keys_update id (with_encryptedValue encrypted) >>
  keys_update id (with_updatedAt (to_uint64 (block_timestamp env))) >>
  let* e := keys_at id in
  modify (log (Call_allowThis (encryptedValue e))) >>
  let* e := keys_at id in
  modify (log (Call_allow (encryptedValue e) (msg_sender env))) >>
  let* e := keys_at id in
  let* e' := keys_at id in
  modify (log (Emit (KeyUpdated id (msg_sender env) (keyName e) (updatedAt e')))).

Definition getKeyCountByOwner (owner : address) : M State uint256 :=
  gets (fun s => N.of_nat (length (keysOf s owner))).

Definition getKeyIdsByOwner (owner : address) : M State (list uint256) :=
  gets (fun s => keysOf s owner).

Definition getKeyMeta (id : uint256) : M State (address * string * uint64 * uint64) :=
  let* len := keys_length in
  require (id <? len) "Key does not exist" >>
  let* entry := keys_at id in
  ret (owner entry, keyName entry, createdAt entry, updatedAt entry).

Definition getEncryptedValue (id : uint256) : M State euint64 :=
  let* len := keys_length in
  require (id <? len) "Key does not exist" >>
  let* e := keys_at id in
  ret (encryptedValue e).

Definition getTotalKeyCount : M State uint256 := keys_length.

(** The external interface: one constructor per external function. *)
Inductive Call : Type :=
| call_storeKey (keyName : string) (encValue : externalEuint64)
    (inputProof signature : bytes)
| call_updateKey (id : uint256) (encValue : externalEuint64)
    (inputProof signature : bytes)
| call_getKeyCountByOwner (owner : address)
| call_getKeyIdsByOwner (owner : address)
| call_getKeyMeta (id : uint256)
| call_getEncryptedValue (id : uint256)
| call_getTotalKeyCount.

Inductive Returned : Type :=
| ret_unit
| ret_uint (n : uint256)
| ret_ids (ids : list uint256)
| ret_meta (m : address * string * uint64 * uint64)
| ret_handle (h : euint64).

Definition dispatch (env : Env) (c : Call) : M State Returned :=
  match c with
  | call_storeKey keyName encValue inputProof signature =>
      storeKey env keyName encValue inputProof signature >> ret ret_unit
  | call_updateKey id encValue inputProof signature =>
      updateKey env id encValue inputProof signature >> ret ret_unit
  | call_getKeyCountByOwner owner =>
      let* n := getKeyCountByOwner owner in ret (ret_uint n)
  | call_getKeyIdsByOwner owner =>
      let* ids := getKeyIdsByOwner owner in ret (ret_ids ids)
  | call_getKeyMeta id =>
      let* m := getKeyMeta id in ret (ret_meta m)
  | call_getEncryptedValue id =>
      let* h := getEncryptedValue id in ret (ret_handle h)
  | call_getTotalKeyCount =>
      let* n := getTotalKeyCount in ret (ret_uint n)
  end.

(** One transaction. *)
Definition exec (env : Env) (c : Call) (s : State) : result Returned * State :=
  transact (dispatch env c) s.

(** A sequence of transactions, each in its own environment. *)
Fixpoint run (txs : list (Env * Call)) (s : State) : list (result Returned) * State :=
  match txs with
  | [] => ([], s)
  | (env, c) :: txs' =>
      let (r, s') := exec env c s in
      let (rs, s'') := run txs' s' in
      (r :: rs, s'')
  end.

End Code.

End FrostKeyChain.

(** ** contracts/ColdChainTracker.sol *)

Module ColdChainTracker.

Record TemperatureLog : Type := mkTemperatureLog {
  recorder : address;
  location : string;
  cargo : string;
  encryptedTemperature : euint64;
  timestamp : uint64;
  isWarning : bool;
}.

Inductive Event : Type :=
| TemperatureRecorded (id : uint256) (recorder : address) (location cargo : string)
    (timestamp : uint64) (isWarning : bool).

Record State : Type := mkState {
  _logs : list TemperatureLog;
  _logsOf : gmap N (list N);
  effects : list (Effect Event);
}.

Definition init : State :=
  {| _logs := []; _logsOf := ∅; effects := [] |}.

Definition logsOf (s : State) (a : address) : list uint256 :=
  default [] (_logsOf s !! a).

Definition set_logs (f : list TemperatureLog -> list TemperatureLog) (s : State) : State :=
  {| _logs := f (_logs s); _logsOf := _logsOf s; effects := effects s |}.

Definition push_logsOf (a : address) (id : uint256) (s : State) : State :=
  {| _logs := _logs s;
     _logsOf := <[a := logsOf s a ++ [id]]> (_logsOf s);
     effects := effects s |}.

Definition log (e : Effect Event) (s : State) : State :=
  {| _logs := _logs s; _logsOf := _logsOf s; effects := effects s ++ [e] |}.

#[local] Open Scope evm_scope.

Definition logs_at (id : uint256) : M State TemperatureLog :=
  fun s => (index (_logs s) id, s).

Definition logs_length : M State uint256 :=
  gets (fun s => N.of_nat (length (_logs s))).

(** [ids[i] = v] on a memory array. *)
Definition memory_store (ids : list uint256) (i v : uint256) : result (list uint256) :=
  if i <? N.of_nat (length ids) then Ok (<[N.to_nat i := v]> ids)
  else Revert (Panic 0x32).

Section Code.
Context `{Primitives}.

Definition RECORD_TEMP_TYPEHASH : bytes32 :=
  keccak256 (list_byte_of_string
    "ColdChainTracker.record(address recorder,string location,string cargo)").

Definition recover (hash : bytes32) (signature : bytes) : M State address :=
  modify (log (Call_recover hash signature)) >>
  match ECDSA_recover hash signature with
  | inl e => revert (ECDSAError e)
  | inr signer => ret signer
  end.

Definition fromExternal (env : Env) (encValue : externalEuint64)
    (inputProof : bytes) : M State euint64 :=
  modify (log (Call_fromExternal (msg_sender env) encValue inputProof)) >>
  match FHE_fromExternal (msg_sender env) encValue inputProof with
  | None => revert InvalidInputProof
  | Some v => ret v
  end.

Definition record_digest (sender : address) (location cargo : string) : bytes32 :=
  keccak256 (abi_encode [RECORD_TEMP_TYPEHASH; sender;
                         keccak256 (list_byte_of_string location);
                         keccak256 (list_byte_of_string cargo)]).

Definition _verifyRecordSignature (env : Env) (location cargo : string)
    (signature : bytes) : M State unit :=
  let digest := record_digest (msg_sender env) location cargo in
  let hash := toEthSignedMessageHash digest in
  let* signer := recover hash signature in
  require (signer =? msg_sender env) "Invalid record signature".

Definition recordTemperature (env : Env) (location cargo : string)
    (encTemp : externalEuint64) (inputProof : bytes) (isWarning : bool)
    (signature : bytes) : M State unit :=
  require (0 <? bytes_length location) "Location cannot be empty" >>
  require (0 <? bytes_length cargo) "Cargo description cannot be empty" >>
  _verifyRecordSignature env location cargo signature >>
  let* encrypted := fromExternal env encTemp inputProof in
  let entry :=
    {| recorder := msg_sender env;
       location := location;
       cargo := cargo;
       encryptedTemperature := encrypted;
       timestamp := to_uint64 (block_timestamp env);
       isWarning := isWarning |} in
  modify (set_logs (fun ls => ls ++ [entry])) >>
  let* len := logs_length in
  let* id := lift (checked_sub len 1) in
  modify (push_logsOf (msg_sender env) id) >>
  let* l := logs_at id in
  modify (log (Call_allowThis (encryptedTemperature l))) >>
  let* l := logs_at id in
  modify (log (Call_allow (encryptedTemperature l) (msg_sender env))) >>
  modify (log (Emit (TemperatureRecorded id (msg_sender env) location cargo
                       (timestamp entry) isWarning))).

Definition getLogMeta (id : uint256)
    : M State (address * string * string * uint64 * bool) :=
  let* len := logs_length in
  require (id <? len) "Log does not exist" >>
  let* l := logs_at id in
  ret (recorder l, location l, cargo l, timestamp l, isWarning l).

Definition getLogCountByRecorder (recorder : address) : M State uint256 :=
  gets (fun s => N.of_nat (length (logsOf s recorder))).

Definition getLogIdsByRecorder (recorder : address) : M State (list uint256) :=
  gets (fun s => logsOf s recorder).

(** The loop of [getAllLogIds]; [gas] bounds the number of times the
    condition is evaluated. *)
Fixpoint getAllLogIds_loop (gas : nat) (i : uint256) (ids : list uint256)
    : M State (list uint256) :=
  match gas with
  | O => revert OutOfGas
  | S gas' =>
      let* len := logs_length in
      if i <? len then
        let* ids' := lift (memory_store ids i i) in
        let* i' := lift (checked_add i 1) in
        getAllLogIds_loop gas' i' ids'
      else ret ids
  end.

Definition getAllLogIds : M State (list uint256) :=
  let* len := logs_length in
  let ids := replicate (N.to_nat len) 0 in
  fun s => getAllLogIds_loop (S (length (_logs s))) 0 ids s.

Definition getEncryptedTemperature (id : uint256) : M State euint64 :=
  let* len := logs_length in
  require (id <? len) "Log does not exist" >>
  let* l := logs_at id in
  ret (encryptedTemperature l).

Definition getTotalLogCount : M State uint256 := logs_length.

(** The loop of [getStats]. *)
Fixpoint getStats_loop (gas : nat) (i warningCount : uint256) : M State uint256 :=
  match gas with
  | O => revert OutOfGas
  | S gas' =>
      let* len := logs_length in
      if i <? len then
        let* l := logs_at i in
        let* warningCount' :=
          (if isWarning l then lift (checked_add warningCount 1)
           else ret warningCount) in
        let* i' := lift (checked_add i 1) in
        getStats_loop gas' i' warningCount'
      else ret warningCount
  end.

Definition getStats : M State (uint256 * uint256) :=
  let* totalLogs := logs_length in
  let* warningCount := (fun s => getStats_loop (S (length (_logs s))) 0 0 s) in
  ret (totalLogs, warningCount).

Inductive Call : Type :=
| call_recordTemperature (location cargo : string) (encTemp : externalEuint64)
    (inputProof : bytes) (isWarning : bool) (signature : bytes)
| call_getLogMeta (id : uint256)
| call_getLogCountByRecorder (recorder : address)
| call_getLogIdsByRecorder (recorder : address)
| call_getAllLogIds
| call_getEncryptedTemperature (id : uint256)
| call_getTotalLogCount
| call_getStats.

Inductive Returned : Type :=
| ret_unit
| ret_uint (n : uint256)
| ret_ids (ids : list uint256)
| ret_meta (m : address * string * string * uint64 * bool)
| ret_handle (h : euint64)
| ret_stats (p : uint256 * uint256).

Definition dispatch (env : Env) (c : Call) : M State Returned :=
  match c with
  | call_recordTemperature location cargo encTemp inputProof isWarning signature =>
      recordTemperature env location cargo encTemp inputProof isWarning signature
      >> ret ret_unit
  | call_getLogMeta id => let* m := getLogMeta id in ret (ret_meta m)
  | call_getLogCountByRecorder recorder =>
      let* n := getLogCountByRecorder recorder in ret (ret_uint n)
  | call_getLogIdsByRecorder recorder =>
      let* ids := getLogIdsByRecorder recorder in ret (ret_ids ids)
  | call_getAllLogIds => let* ids := getAllLogIds in ret (ret_ids ids)
  | call_getEncryptedTemperature id =>
      let* h := getEncryptedTemperature id in ret (ret_handle h)
  | call_getTotalLogCount => let* n := getTotalLogCount in ret (ret_uint n)
  | call_getStats => let* p := getStats in ret (ret_stats p)
  end.

Definition exec (env : Env) (c : Call) (s : State) : result Returned * State :=
  transact (dispatch env c) s.

Fixpoint run (txs : list (Env * Call)) (s : State) : list (result Returned) * State :=
  match txs with
  | [] => ([], s)
  | (env, c) :: txs' =>
      let (r, s') := exec env c s in
      let (rs, s'') := run txs' s' in
      (r :: rs, s'')
  end.

End Code.

End ColdChainTracker.

(** ** Concrete primitives, to run the contracts on concrete inputs

    A signature is one byte, naming the address it recovers to; an input
    proof is accepted when it is not empty, and the imported handle is the
    external one. *)

Module Toy.

Definition toy_keccak256 (b : bytes) : bytes32 := N.of_nat (length b).

Definition toy_recover (hash : bytes32) (signature : bytes) : ecdsa_error + address :=
  match signature with
  | [b] => inr (Byte.to_N b)
  | _ => inl (ECDSAInvalidSignatureLength (N.of_nat (length signature)))
  end.

Definition toy_fromExternal (user : address) (handle : externalEuint64)
    (proof : bytes) : option euint64 :=
  match proof with
  | [] => None
  | _ :: _ => Some handle
  end.

Definition primitives : Primitives :=
  {| keccak256 := toy_keccak256;
     toEthSignedMessageHash := fun h => h;
     ECDSA_recover := toy_recover;
     FHE_fromExternal := toy_fromExternal |}.

(** Addresses 1 and 2, their signatures, and a proof that is accepted. *)
Definition alice : address := 1.
Definition bob : address := 2.
Definition sig_alice : bytes := [x01].
Definition sig_bob : bytes := [x02].
Definition proof_ok : bytes := [xff].

End Toy.

(** ** What the specification says the queries return *)

Module Spec.

(** [0, 1, ..., n-1] *)
Definition dense_ids (n : nat) : list uint256 := N.of_nat <$> seq 0 n.

(** The ids of the records of [recs] that belong to [o], in the order
    the records were appended. *)
Definition owned_ids {A} (own : A -> address) (o : address) (recs : list A)
    : list uint256 :=
  List.filter
    (fun i => match recs !! N.to_nat i with
              | Some r => own r =? o
              | None => false
              end)
    (dense_ids (length recs)).

(** The number of records whose flag is set. *)
Definition flagged_count {A} (flag : A -> bool) (recs : list A) : uint256 :=
  N.of_nat (length (List.filter flag recs)).

End Spec.

(** ** The states the mutating calls leave, in closed form *)

Module FrostKeyChainPost.
Import FrostKeyChain.

Section Post.
Context `{Primitives}.

(** The record [storeKey] builds. *)
Definition new_entry (env : Env) (keyName : string) (v : euint64) : KeyEntry :=
  {| owner := msg_sender env;
     keyName := keyName;
     encryptedValue := v;
     createdAt := to_uint64 (block_timestamp env);
     updatedAt := to_uint64 (block_timestamp env) |}.

Definition store_hash (env : Env) (keyName : string) : bytes32 :=
  toEthSignedMessageHash (store_digest (msg_sender env) keyName).

(** The state a successful [storeKey] leaves. *)
Definition stored (env : Env) (keyName : string) (encValue : externalEuint64)
    (inputProof signature : bytes) (v : euint64) (s : State) : State :=
  let id := N.of_nat (length (_keys s)) in
  {| _keys := _keys s ++ [new_entry env keyName v];
     _keysOf := <[msg_sender env := keysOf s (msg_sender env) ++ [id]]> (_keysOf s);
     effects := effects s ++
       [Call_recover (store_hash env keyName) signature;
        Call_fromExternal (msg_sender env) encValue inputProof;
        Call_allowThis v;
        Call_allow v (msg_sender env);
        Emit (KeyStored id (msg_sender env) keyName
                (to_uint64 (block_timestamp env)))] |}.

Definition update_hash (env : Env) (id : uint256) : bytes32 :=
  toEthSignedMessageHash (update_digest (msg_sender env) id).

(** The record a successful [updateKey] leaves at [id]. *)
Definition updated_entry (env : Env) (v : euint64) (e : KeyEntry) : KeyEntry :=
  {| owner := owner e;
     keyName := keyName e;
     encryptedValue := v;
     createdAt := createdAt e;
     updatedAt := to_uint64 (block_timestamp env) |}.

(** The state a successful [updateKey] leaves. *)
Definition updated (env : Env) (id : uint256) (encValue : externalEuint64)
    (inputProof signature : bytes) (v : euint64) (e : KeyEntry) (s : State) : State :=
  {| _keys := <[N.to_nat id := updated_entry env v e]> (_keys s);
     _keysOf := _keysOf s;
     effects := effects s ++
       [Call_recover (update_hash env id) signature;
        Call_fromExternal (msg_sender env) encValue inputProof;
        Call_allowThis v;
        Call_allow v (msg_sender env);
        Emit (KeyUpdated id (msg_sender env) (keyName e)
                (to_uint64 (block_timestamp env)))] |}.

(** A transaction leaves the state as it was, or appends one record,
    or rewrites the value and [updatedAt] of one record. *)
Inductive step_shape (env : Env) (c : Call) (s : State)
    : result Returned -> State -> Prop :=
| shape_same r : step_shape env c s r s
| shape_stored keyName encValue inputProof signature v :
    c = call_storeKey keyName encValue inputProof signature ->
    step_shape env c s (Ok ret_unit)
      (stored env keyName encValue inputProof signature v s)
| shape_updated id encValue inputProof signature v e :
    c = call_updateKey id encValue inputProof signature ->
    _keys s !! N.to_nat id = Some e ->
    owner e = msg_sender env ->
    updatedAt e < to_uint64 (block_timestamp env) ->
    step_shape env c s (Ok ret_unit)
      (updated env id encValue inputProof signature v e s).

(** The owner index lists, for each owner, the ids of its records. *)
Definition index_inv (s : State) : Prop :=
  forall o, keysOf s o = Spec.owned_ids owner o (_keys s).

(** From [s] to [s'] no record was removed and none changed its owner,
    name or creation time; [updatedAt] did not go back. *)
Definition preserved (s s' : State) : Prop :=
  forall i e, _keys s !! i = Some e ->
    exists e', _keys s' !! i = Some e' /\
      owner e' = owner e /\ keyName e' = keyName e /\
      createdAt e' = createdAt e /\ updatedAt e <= updatedAt e'.

(** The same name and signature sent again and again by [sender], each
    time with another payload [(timestamp, encValue, inputProof)]. *)
Definition replay (sender : address) (keyName : string) (signature : bytes)
    (payloads : list (uint256 * externalEuint64 * bytes)) : list (Env * Call) :=
  map (fun p : uint256 * externalEuint64 * bytes =>
         ({| msg_sender := sender; block_timestamp := p.1.1 |},
          call_storeKey keyName p.1.2 p.2 signature))
      payloads.

(** The call got as far as the ingestion of the input proof. *)
Definition past_authorization (r : result Returned) : Prop :=
  r = Ok ret_unit \/ r = Revert InvalidInputProof.

Definition is_storeKey (c : Call) : bool :=
  match c with call_storeKey _ _ _ _ => true | _ => false end.

Definition all_storeKey (txs : list (Env * Call)) : bool :=
  forallb (fun tx => is_storeKey tx.2) txs.

Definition all_ok (rs : list (result Returned)) : bool := forallb is_ok rs.

(** The number of calls of [txs] that are a [storeKey] and succeeded,
    [rs] being their results. *)
Fixpoint successful_appends (txs : list (Env * Call)) (rs : list (result Returned))
    : nat :=
  match txs, rs with
  | (_, c) :: txs', r :: rs' =>
      ((if is_storeKey c && is_ok r then 1 else 0) + successful_appends txs' rs')%nat
  | _, _ => 0%nat
  end.

End Post.
End FrostKeyChainPost.

Module ColdChainTrackerPost.
Import ColdChainTracker.

Section Post.
Context `{Primitives}.

(** The record [recordTemperature] builds. *)
Definition new_log (env : Env) (location cargo : string) (v : euint64)
    (isWarning : bool) : TemperatureLog :=
  {| recorder := msg_sender env;
     location := location;
     cargo := cargo;
     encryptedTemperature := v;
     timestamp := to_uint64 (block_timestamp env);
     isWarning := isWarning |}.

Definition record_hash (env : Env) (location cargo : string) : bytes32 :=
  toEthSignedMessageHash (record_digest (msg_sender env) location cargo).

(** The state a successful [recordTemperature] leaves. *)
Definition recorded (env : Env) (location cargo : string)
    (encTemp : externalEuint64) (inputProof : bytes) (isWarning : bool)
    (signature : bytes) (v : euint64) (s : State) : State :=
  let id := N.of_nat (length (_logs s)) in
  {| _logs := _logs s ++ [new_log env location cargo v isWarning];
     _logsOf := <[msg_sender env := logsOf s (msg_sender env) ++ [id]]> (_logsOf s);
     effects := effects s ++
       [Call_recover (record_hash env location cargo) signature;
        Call_fromExternal (msg_sender env) encTemp inputProof;
        Call_allowThis v;
        Call_allow v (msg_sender env);
        Emit (TemperatureRecorded id (msg_sender env) location cargo
                (to_uint64 (block_timestamp env)) isWarning)] |}.

(** A transaction leaves the state as it was or appends one record. *)
Inductive step_shape (env : Env) (c : Call) (s : State)
    : result Returned -> State -> Prop :=
| shape_same r : step_shape env c s r s
| shape_recorded location cargo encTemp inputProof isWarning signature v :
    c = call_recordTemperature location cargo encTemp inputProof isWarning signature ->
    step_shape env c s (Ok ret_unit)
      (recorded env location cargo encTemp inputProof isWarning signature v s).

Definition index_inv (s : State) : Prop :=
  forall o, logsOf s o = Spec.owned_ids recorder o (_logs s).

Definition is_recordTemperature (c : Call) : bool :=
  match c with call_recordTemperature _ _ _ _ _ _ => true | _ => false end.

Definition all_recordTemperature (txs : list (Env * Call)) : bool :=
  forallb (fun tx => is_recordTemperature tx.2) txs.

Definition all_ok (rs : list (result Returned)) : bool := forallb is_ok rs.

(** The number of calls of [txs] that are a [recordTemperature] and
    succeeded, [rs] being their results. *)
Fixpoint successful_appends (txs : list (Env * Call)) (rs : list (result Returned))
    : nat :=
  match txs, rs with
  | (_, c) :: txs', r :: rs' =>
      ((if is_recordTemperature c && is_ok r then 1 else 0)
       + successful_appends txs' rs')%nat
  | _, _ => 0%nat
  end.

End Post.
End ColdChainTrackerPost.

(** ** Concrete transactions, run on the concrete primitives *)

Module Scenario.
Import Toy.

Definition at_time (who : address) (t : uint256) : Env :=
  {| msg_sender := who; block_timestamp := t |}.

(** Three keys stored by the same owner. *)
Definition three_keys : list (Env * FrostKeyChain.Call) :=
  [(at_time alice 10, FrostKeyChain.call_storeKey "API Key 1" 111 proof_ok sig_alice);
   (at_time alice 11, FrostKeyChain.call_storeKey "API Key 2" 222 proof_ok sig_alice);
   (at_time alice 12, FrostKeyChain.call_storeKey "Password" 333 proof_ok sig_alice)].

(** The three readings of the specification's scenario. *)
Definition three_logs : list (Env * ColdChainTracker.Call) :=
  [(at_time alice 10,
    ColdChainTracker.call_recordTemperature "Shanghai Port" "Frozen Seafood - 500kg"
      180 proof_ok false sig_alice);
   (at_time alice 11,
    ColdChainTracker.call_recordTemperature "Singapore Hub" "Frozen Seafood - 500kg"
      150 proof_ok true sig_alice);
   (at_time alice 12,
    ColdChainTracker.call_recordTemperature "LA Port" "Frozen Seafood - 500kg"
      190 proof_ok false sig_alice)].

Definition keys3 : FrostKeyChain.State :=
  (FrostKeyChain.run (H := primitives) three_keys FrostKeyChain.init).2.

Definition logs3 : ColdChainTracker.State :=
  (ColdChainTracker.run (H := primitives) three_logs ColdChainTracker.init).2.

End Scenario.

(** ** Inputs of every length *)

Module Long.

(** The string of [n] letters a. *)
Definition letters (n : nat) : string := string_of_list_byte (repeat x61 n).

End Long.

(** ** Facts about the shared definitions *)

Section EvmFacts.

Lemma to_uint64_small (x : N) : x < 2 ^ 64 -> to_uint64 x = x.
Proof. intros Hx. unfold to_uint64. now apply N.mod_small. Qed.

Lemma index_lookup {A} (a : list A) (i : nat) (x : A) :
  a !! i = Some x -> index a (N.of_nat i) = Ok x.
Proof. intros Hx. unfold index. now rewrite Nat2N.id, Hx. Qed.

Lemma index_last {A} (a : list A) (x : A) :
  index (a ++ [x]) (N.of_nat (length a)) = Ok x.
Proof. apply index_lookup. now rewrite list_lookup_middle. Qed.

Lemma index_in_range {A} (a : list A) (i : N) :
  i < N.of_nat (length a) -> exists x, a !! N.to_nat i = Some x /\ index a i = Ok x.
Proof.
  intros Hi. destruct (lookup_lt_is_Some_2 a (N.to_nat i)) as [x Hx]; [lia|].
  exists x. split; [assumption|]. unfold index. now rewrite Hx.
Qed.

Lemma checked_sub_length {A} (a : list A) (x : A) :
  checked_sub (N.of_nat (length (a ++ [x]))) 1 = Ok (N.of_nat (length a)).
Proof.
  unfold checked_sub. rewrite length_app. simpl length.
  destruct (N.leb_spec 1 (N.of_nat (length a + 1))) as [_|Hlt]; [|lia].
  f_equal. lia.
Qed.

Lemma transact_revert_state {St A} (m : M St A) (s s' : St) (r : revert_reason) :
  transact m s = (Revert r, s') -> s' = s.
Proof.
  unfold transact. destruct (m s) as [[a|r'] s'']; intros Heq; congruence.
Qed.

End EvmFacts.

(** ** Facts about the specification's lists of ids *)

Section SpecFacts.
Import Spec.

Lemma dense_ids_S (n : nat) : dense_ids (S n) = dense_ids n ++ [N.of_nat n].
Proof. unfold dense_ids. now rewrite seq_S, fmap_app. Qed.

Lemma length_dense_ids (n : nat) : length (dense_ids n) = n.
Proof. unfold dense_ids. now rewrite length_fmap, length_seq. Qed.

Lemma elem_of_dense_ids (n : nat) (i : N) :
  i ∈ dense_ids n <-> i < N.of_nat n.
Proof.
  unfold dense_ids. rewrite list_elem_of_fmap. split.
  - intros (k & -> & Hk). apply elem_of_seq in Hk. lia.
  - intros Hi. exists (N.to_nat i). split; [lia|]. apply elem_of_seq. lia.
Qed.

Lemma dense_ids_sorted (n : nat) : StronglySorted N.lt (dense_ids n).
Proof.
  induction n as [|n IH]; [constructor|].
  rewrite dense_ids_S. apply StronglySorted_app_2; [| assumption | repeat constructor].
  intros i j Hi Hj. apply elem_of_dense_ids in Hi.
  apply list_elem_of_singleton in Hj. subst j. assumption.
Qed.

Section Owned.
Context {A : Type} (own : A -> address).

Lemma owned_ids_snoc (o : address) (recs : list A) (r : A) :
  owned_ids own o (recs ++ [r]) =
  owned_ids own o recs ++
    (if own r =? o then [N.of_nat (length recs)] else []).
Proof.
  unfold owned_ids. rewrite length_app. simpl length.
  rewrite Nat.add_1_r, dense_ids_S, List.filter_app. f_equal.
  - apply List.filter_ext_in. intros i Hi.
    apply list_elem_of_In, elem_of_dense_ids in Hi.
    rewrite lookup_app_l by lia. reflexivity.
  - simpl. rewrite Nat2N.id, list_lookup_middle by reflexivity. reflexivity.
Qed.

(** Only the owner fields matter. *)
Lemma owned_ids_ext (o : address) (recs recs' : list A) :
  own <$> recs = own <$> recs' -> owned_ids own o recs = owned_ids own o recs'.
Proof.
  intros Heq. unfold owned_ids.
  assert (Hlen : length recs = length recs').
  { rewrite <- (length_fmap own recs), Heq. apply length_fmap. }
  rewrite Hlen. apply List.filter_ext. intros i.
  assert (Hi : own <$> (recs !! N.to_nat i) = own <$> (recs' !! N.to_nat i)).
  { rewrite <- !list_lookup_fmap. now rewrite Heq. }
  destruct (recs !! N.to_nat i), (recs' !! N.to_nat i); simpl in Hi;
    congruence.
Qed.

Lemma elem_of_owned_ids (o : address) (recs : list A) (i : uint256) :
  i ∈ owned_ids own o recs <->
  exists r, recs !! N.to_nat i = Some r /\ own r = o.
Proof.
  unfold owned_ids. rewrite list_elem_of_In, List.filter_In.
  rewrite <- list_elem_of_In, elem_of_dense_ids. split.
  - intros [_ Hr]. destruct (recs !! N.to_nat i) as [r|]; [|discriminate].
    exists r. split; [reflexivity|]. now apply N.eqb_eq.
  - intros (r & Hr & Ho). split.
    + apply lookup_lt_Some in Hr. lia.
    + rewrite Hr. now apply N.eqb_eq.
Qed.

Lemma owned_ids_sorted (o : address) (recs : list A) :
  StronglySorted N.lt (owned_ids own o recs).
Proof.
  unfold owned_ids.
  generalize (dense_ids_sorted (length recs)).
  generalize (dense_ids (length recs)). intros ids Hs.
  induction Hs as [|i ids Hs IH Hall]; simpl; [constructor|].
  destruct (match recs !! N.to_nat i with Some r => own r =? o | None => false end);
    [|assumption].
  constructor; [assumption|].
  rewrite List.Forall_forall in *. intros j Hj.
  apply List.filter_In in Hj. now apply Hall.
Qed.

End Owned.

Lemma flagged_count_snoc {A} (flag : A -> bool) (recs : list A) (r : A) :
  flagged_count flag (recs ++ [r]) =
  flagged_count flag recs + (if flag r then 1 else 0).
Proof.
  unfold flagged_count. rewrite List.filter_app, length_app. simpl.
  destruct (flag r); simpl; lia.
Qed.

Lemma flagged_count_le {A} (flag : A -> bool) (recs : list A) :
  flagged_count flag recs <= N.of_nat (length recs).
Proof.
  unfold flagged_count. pose proof (List.filter_length_le flag recs). lia.
Qed.

End SpecFacts.

(** ** FrostKeyChain: what one call does *)

Module FrostKeyChainFacts.
Import FrostKeyChain FrostKeyChainPost.

Section Steps.
Context `{Primitives}.

Lemma storeKey_run env keyName encValue inputProof signature s :
  storeKey env keyName encValue inputProof signature s =
  if negb (0 <? bytes_length keyName)
  then (Revert (Error "Key name cannot be empty"), s)
  else if negb (bytes_length keyName <=? 100)
  then (Revert (Error "Key name too long"), s)
  else
    let s1 := log (Call_recover (store_hash env keyName) signature) s in
    match ECDSA_recover (store_hash env keyName) signature with
    | inl e => (Revert (ECDSAError e), s1)
    | inr signer =>
        if signer =? msg_sender env then
          let s2 := log (Call_fromExternal (msg_sender env) encValue inputProof) s1 in
          match FHE_fromExternal (msg_sender env) encValue inputProof with
          | None => (Revert InvalidInputProof, s2)
          | Some v => (Ok tt, stored env keyName encValue inputProof signature v s)
          end
        else (Revert (Error "Invalid store signature"), s1)
    end.
Proof.
  unfold storeKey, _verifyStoreSignature, recover, fromExternal, store_hash.
  unfold bind at 1. unfold require at 1.
  destruct (0 <? bytes_length keyName); cbn [negb]; [|reflexivity].
  unfold ret at 1. unfold bind at 1. unfold require at 1.
  destruct (bytes_length keyName <=? 100); cbn [negb]; [|reflexivity].
  unfold ret at 1.
  cbv beta iota zeta.
  destruct (ECDSA_recover _ signature) as [e|signer] eqn:Hrec.
  - reflexivity.
  - unfold bind, modify, ret, require. cbn.
    destruct (signer =? msg_sender env); [|reflexivity].
    cbn.
    destruct (FHE_fromExternal _ encValue inputProof) as [v|]; [|reflexivity].
    cbn. unfold lift, keys_at, keys_length, gets. cbn.
    rewrite checked_sub_length. cbn.
    rewrite index_last. cbn.
    unfold stored, log, push_keysOf, set_keys, keysOf, new_entry. cbn.
    rewrite <- !app_assoc. reflexivity.
Qed.

Lemma updateKey_run env id encValue inputProof signature s :
  updateKey env id encValue inputProof signature s =
  if negb (id <? N.of_nat (length (_keys s)))
  then (Revert (Error "Key does not exist"), s)
  else
    match _keys s !! N.to_nat id with
    | None => (Revert (Panic 0x32), s)
    | Some e =>
        if negb (owner e =? msg_sender env)
        then (Revert (Error "Not the owner"), s)
        else if negb (updatedAt e <? to_uint64 (block_timestamp env))
        then (Revert (Error "Cannot update same timestamp"), s)
        else
          let s1 := log (Call_recover (update_hash env id) signature) s in
          match ECDSA_recover (update_hash env id) signature with
          | inl err => (Revert (ECDSAError err), s1)
          | inr signer =>
              if signer =? msg_sender env then
                let s2 :=
                  log (Call_fromExternal (msg_sender env) encValue inputProof) s1 in
                match FHE_fromExternal (msg_sender env) encValue inputProof with
                | None => (Revert InvalidInputProof, s2)
                | Some v =>
                    (Ok tt, updated env id encValue inputProof signature v e s)
                end
              else (Revert (Error "Invalid update signature"), s1)
          end
    end.
Proof.
  unfold updateKey, _verifyUpdateSignature, recover, fromExternal, update_hash.
  unfold bind at 1. unfold keys_length at 1, gets at 1.
  unfold bind at 1. unfold require at 1.
  destruct (N.ltb_spec id (N.of_nat (length (_keys s)))) as [Hlt|Hge];
    cbn [negb]; [|reflexivity].
  unfold ret at 1.
  unfold bind at 1. unfold keys_at at 1. unfold index at 1.
  destruct (_keys s !! N.to_nat id) as [e|] eqn:He; [|reflexivity].
  unfold bind at 1. unfold require at 1.
  destruct (owner e =? msg_sender env); cbn [negb]; [|reflexivity].
  unfold ret at 1.
  unfold bind at 1. unfold keys_at at 1. unfold index at 1. rewrite He.
  unfold bind at 1. unfold require at 1.
  destruct (updatedAt e <? to_uint64 (block_timestamp env)); cbn [negb];
    [|reflexivity].
  unfold ret at 1. cbv beta iota zeta.
  destruct (ECDSA_recover _ signature) as [err|signer]; [reflexivity|].
  unfold bind, modify, ret, require. cbn.
  destruct (signer =? msg_sender env); [|reflexivity].
  cbn.
  destruct (FHE_fromExternal _ encValue inputProof) as [v|]; [|reflexivity].
  cbn. unfold keys_update, keys_at, bind, modify, index. cbn.
  rewrite He.
  assert (Hin : (N.to_nat id < length (_keys s))%nat) by lia.
  cbn. rewrite list_lookup_insert_eq by assumption.
  cbn. rewrite list_lookup_insert_eq by (rewrite length_insert; assumption).
  cbn. unfold updated, updated_entry, log, set_keys, with_updatedAt,
    with_encryptedValue, update_hash. cbn.
  rewrite list_insert_insert_eq, <- !app_assoc. reflexivity.
Qed.

(** *** Transactions *)

Lemma exec_storeKey env keyName encValue inputProof signature s :
  exec env (call_storeKey keyName encValue inputProof signature) s =
  if negb (0 <? bytes_length keyName)
  then (Revert (Error "Key name cannot be empty"), s)
  else if negb (bytes_length keyName <=? 100)
  then (Revert (Error "Key name too long"), s)
  else
    match ECDSA_recover (store_hash env keyName) signature with
    | inl e => (Revert (ECDSAError e), s)
    | inr signer =>
        if signer =? msg_sender env then
          match FHE_fromExternal (msg_sender env) encValue inputProof with
          | None => (Revert InvalidInputProof, s)
          | Some v =>
              (Ok ret_unit, stored env keyName encValue inputProof signature v s)
          end
        else (Revert (Error "Invalid store signature"), s)
    end.
Proof.
  unfold exec, transact, dispatch. unfold bind at 1.
  rewrite storeKey_run.
  destruct (0 <? bytes_length keyName); cbn [negb]; [|reflexivity].
  destruct (bytes_length keyName <=? 100); cbn [negb]; [|reflexivity].
  cbv zeta.
  destruct (ECDSA_recover _ signature) as [e|signer]; [reflexivity|].
  destruct (signer =? msg_sender env); [|reflexivity].
  destruct (FHE_fromExternal _ encValue inputProof); reflexivity.
Qed.

Lemma exec_updateKey env id encValue inputProof signature s :
  exec env (call_updateKey id encValue inputProof signature) s =
  if negb (id <? N.of_nat (length (_keys s)))
  then (Revert (Error "Key does not exist"), s)
  else
    match _keys s !! N.to_nat id with
    | None => (Revert (Panic 0x32), s)
    | Some e =>
        if negb (owner e =? msg_sender env)
        then (Revert (Error "Not the owner"), s)
        else if negb (updatedAt e <? to_uint64 (block_timestamp env))
        then (Revert (Error "Cannot update same timestamp"), s)
        else
          match ECDSA_recover (update_hash env id) signature with
          | inl err => (Revert (ECDSAError err), s)
          | inr signer =>
              if signer =? msg_sender env then
                match FHE_fromExternal (msg_sender env) encValue inputProof with
                | None => (Revert InvalidInputProof, s)
                | Some v =>
                    (Ok ret_unit,
                     updated env id encValue inputProof signature v e s)
                end
              else (Revert (Error "Invalid update signature"), s)
          end
    end.
Proof.
  unfold exec, transact, dispatch. unfold bind at 1.
  rewrite updateKey_run.
  destruct (id <? N.of_nat (length (_keys s))); cbn [negb]; [|reflexivity].
  destruct (_keys s !! N.to_nat id) as [e|]; [|reflexivity].
  destruct (owner e =? msg_sender env); cbn [negb]; [|reflexivity].
  destruct (updatedAt e <? to_uint64 (block_timestamp env)); cbn [negb];
    [|reflexivity].
  cbv zeta.
  destruct (ECDSA_recover _ signature) as [err|signer]; [reflexivity|].
  destruct (signer =? msg_sender env); [|reflexivity].
  destruct (FHE_fromExternal _ encValue inputProof); reflexivity.
Qed.

Lemma exec_getTotalKeyCount env s :
  exec env call_getTotalKeyCount s = (Ok (ret_uint (N.of_nat (length (_keys s)))), s).
Proof. reflexivity. Qed.

Lemma exec_getKeyCountByOwner env o s :
  exec env (call_getKeyCountByOwner o) s =
  (Ok (ret_uint (N.of_nat (length (keysOf s o)))), s).
Proof. reflexivity. Qed.

Lemma exec_getKeyIdsByOwner env o s :
  exec env (call_getKeyIdsByOwner o) s = (Ok (ret_ids (keysOf s o)), s).
Proof. reflexivity. Qed.

Lemma getKeyMeta_run id s :
  getKeyMeta id s =
  match _keys s !! N.to_nat id with
  | Some e => (Ok (owner e, keyName e, createdAt e, updatedAt e), s)
  | None => (Revert (Error "Key does not exist"), s)
  end.
Proof.
  unfold getKeyMeta, bind, keys_length, gets, require, keys_at, index, ret, revert.
  destruct (N.ltb_spec id (N.of_nat (length (_keys s)))) as [Hlt|Hge].
  - destruct (index_in_range (_keys s) id Hlt) as (e & He & _). now rewrite He.
  - rewrite lookup_ge_None_2 by lia. reflexivity.
Qed.

Lemma getEncryptedValue_run id s :
  getEncryptedValue id s =
  match _keys s !! N.to_nat id with
  | Some e => (Ok (encryptedValue e), s)
  | None => (Revert (Error "Key does not exist"), s)
  end.
Proof.
  unfold getEncryptedValue, bind, keys_length, gets, require, keys_at, index,
    ret, revert.
  destruct (N.ltb_spec id (N.of_nat (length (_keys s)))) as [Hlt|Hge].
  - destruct (index_in_range (_keys s) id Hlt) as (e & He & _). now rewrite He.
  - rewrite lookup_ge_None_2 by lia. reflexivity.
Qed.

Lemma exec_getKeyMeta env id s :
  exec env (call_getKeyMeta id) s =
  match _keys s !! N.to_nat id with
  | Some e => (Ok (ret_meta (owner e, keyName e, createdAt e, updatedAt e)), s)
  | None => (Revert (Error "Key does not exist"), s)
  end.
Proof.
  unfold exec, transact, dispatch. unfold bind at 1. rewrite getKeyMeta_run.
  destruct (_keys s !! N.to_nat id); reflexivity.
Qed.

Lemma exec_getEncryptedValue env id s :
  exec env (call_getEncryptedValue id) s =
  match _keys s !! N.to_nat id with
  | Some e => (Ok (ret_handle (encryptedValue e)), s)
  | None => (Revert (Error "Key does not exist"), s)
  end.
Proof.
  unfold exec, transact, dispatch. unfold bind at 1. rewrite getEncryptedValue_run.
  destruct (_keys s !! N.to_nat id); reflexivity.
Qed.

Lemma keys_exec_shape env c s :
  step_shape env c s (exec env c s).1 (exec env c s).2.
Proof.
  destruct c as [keyName encValue inputProof signature
                |id encValue inputProof signature|o|o|id|id|].
  - rewrite exec_storeKey.
    destruct (0 <? bytes_length keyName); cbn [negb]; [|constructor].
    destruct (bytes_length keyName <=? 100); cbn [negb]; [|constructor].
    destruct (ECDSA_recover _ signature) as [e|signer]; [constructor|].
    destruct (signer =? msg_sender env); [|constructor].
    destruct (FHE_fromExternal _ encValue inputProof); [|constructor].
    now eapply shape_stored.
  - rewrite exec_updateKey.
    destruct (id <? N.of_nat (length (_keys s))); cbn [negb]; [|constructor].
    destruct (_keys s !! N.to_nat id) as [e|] eqn:He; [|constructor].
    destruct (N.eqb_spec (owner e) (msg_sender env)) as [Ho|Ho]; cbn [negb];
      [|constructor].
    destruct (N.ltb_spec (updatedAt e) (to_uint64 (block_timestamp env)));
      cbn [negb]; [|constructor].
    destruct (ECDSA_recover _ signature) as [err|signer]; [constructor|].
    destruct (signer =? msg_sender env); [|constructor].
    destruct (FHE_fromExternal _ encValue inputProof); [|constructor].
    now eapply shape_updated.
  - constructor.
  - constructor.
  - rewrite exec_getKeyMeta. destruct (_keys s !! N.to_nat id); constructor.
  - rewrite exec_getEncryptedValue. destruct (_keys s !! N.to_nat id); constructor.
  - constructor.
Qed.

(** A reverted transaction changes nothing. *)
Lemma keys_exec_revert_state env c s r s' :
  exec env c s = (Revert r, s') -> s' = s.
Proof. apply transact_revert_state. Qed.

(** *** Sequences of transactions *)

Lemma keys_run_cons env c txs s :
  run ((env, c) :: txs) s =
  ((exec env c s).1 :: (run txs (exec env c s).2).1, (run txs (exec env c s).2).2).
Proof.
  simpl. destruct (exec env c s) as [r s']. simpl.
  destruct (run txs s') as [rs s'']. reflexivity.
Qed.

(** A property of states kept by every transaction holds after every
    sequence of transactions. *)
Lemma keys_run_invariant (P : State -> Prop) :
  (forall env c s, P s -> P (exec env c s).2) ->
  forall txs s, P s -> P (run txs s).2.
Proof.
  intros Hstep txs. induction txs as [|[env c] txs IH]; intros s Hs; [exact Hs|].
  rewrite keys_run_cons. simpl. apply IH, Hstep, Hs.
Qed.

(** *** The owner index *)

Lemma keys_index_inv_init : index_inv init.
Proof. intros o. reflexivity. Qed.

Lemma keysOf_stored env keyName encValue inputProof signature v s o :
  keysOf (stored env keyName encValue inputProof signature v s) o =
  keysOf s o ++
    (if msg_sender env =? o then [N.of_nat (length (_keys s))] else []).
Proof.
  unfold keysOf at 1. simpl.
  destruct (N.eqb_spec (msg_sender env) o) as [->|Hne].
  - now rewrite lookup_insert_eq.
  - rewrite lookup_insert_ne by assumption. now rewrite app_nil_r.
Qed.

Lemma owners_updated env id encValue inputProof signature v e s :
  _keys s !! N.to_nat id = Some e ->
  owner <$> _keys (updated env id encValue inputProof signature v e s) =
  owner <$> _keys s.
Proof.
  intros He. simpl. rewrite list_fmap_insert. simpl.
  apply list_insert_id. now rewrite list_lookup_fmap, He.
Qed.

Lemma keys_index_inv_step env c s : index_inv s -> index_inv (exec env c s).2.
Proof.
  intros Hinv. destruct (keys_exec_shape env c s) as [r| |]; [assumption| |].
  - intros o. rewrite keysOf_stored, Hinv. simpl.
    now rewrite owned_ids_snoc.
  - intros o. rewrite (owned_ids_ext owner o _ (_keys s)).
    + apply Hinv.
    + now apply owners_updated.
Qed.

Lemma keys_index_inv_run txs : index_inv (run txs init).2.
Proof. apply keys_run_invariant; [apply keys_index_inv_step | apply keys_index_inv_init]. Qed.

(** *** Successful calls *)

Lemma exec_storeKey_ok env keyName encValue inputProof signature s r s' :
  exec env (call_storeKey keyName encValue inputProof signature) s = (Ok r, s') ->
  0 < bytes_length keyName /\ bytes_length keyName <= 100 /\
  ECDSA_recover (store_hash env keyName) signature = inr (msg_sender env) /\
  exists v, FHE_fromExternal (msg_sender env) encValue inputProof = Some v /\
    r = ret_unit /\
    s' = stored env keyName encValue inputProof signature v s.
Proof.
  rewrite exec_storeKey.
  destruct (N.ltb_spec 0 (bytes_length keyName)); cbn [negb]; [|discriminate].
  destruct (N.leb_spec (bytes_length keyName) 100); cbn [negb]; [|discriminate].
  destruct (ECDSA_recover _ signature) as [e|signer]; [discriminate|].
  destruct (N.eqb_spec signer (msg_sender env)) as [->|]; [|discriminate].
  destruct (FHE_fromExternal _ encValue inputProof) as [v|]; [|discriminate].
  intros [= <- <-]. repeat split; try assumption. now exists v.
Qed.

Lemma exec_updateKey_ok env id encValue inputProof signature s r s' :
  exec env (call_updateKey id encValue inputProof signature) s = (Ok r, s') ->
  exists e v,
    _keys s !! N.to_nat id = Some e /\
    owner e = msg_sender env /\
    updatedAt e < to_uint64 (block_timestamp env) /\
    ECDSA_recover (update_hash env id) signature = inr (msg_sender env) /\
    FHE_fromExternal (msg_sender env) encValue inputProof = Some v /\
    r = ret_unit /\
    s' = updated env id encValue inputProof signature v e s.
Proof.
  rewrite exec_updateKey.
  destruct (id <? N.of_nat (length (_keys s))); cbn [negb]; [|discriminate].
  destruct (_keys s !! N.to_nat id) as [e|]; [|discriminate].
  destruct (N.eqb_spec (owner e) (msg_sender env)); cbn [negb]; [|discriminate].
  destruct (N.ltb_spec (updatedAt e) (to_uint64 (block_timestamp env)));
    cbn [negb]; [|discriminate].
  destruct (ECDSA_recover _ signature) as [err|signer]; [discriminate|].
  destruct (N.eqb_spec signer (msg_sender env)) as [->|]; [|discriminate].
  destruct (FHE_fromExternal _ encValue inputProof) as [v|]; [|discriminate].
  intros [= <- <-]. exists e, v. repeat split; assumption.
Qed.

(** *** Records are kept *)

Lemma preserved_refl s : preserved s s.
Proof. intros i e He. exists e. repeat split; [assumption | lia]. Qed.

Lemma preserved_trans s1 s2 s3 :
  preserved s1 s2 -> preserved s2 s3 -> preserved s1 s3.
Proof.
  intros H12 H23 i e He.
  destruct (H12 i e He) as (e2 & He2 & Ho2 & Hn2 & Hc2 & Hu2).
  destruct (H23 i e2 He2) as (e3 & He3 & Ho3 & Hn3 & Hc3 & Hu3).
  exists e3. repeat split; try congruence. lia.
Qed.

Lemma preserved_step env c s : preserved s (exec env c s).2.
Proof.
  destruct (keys_exec_shape env c s)
    as [r|keyName encValue inputProof signature v _
       |id encValue inputProof signature v e _ He Ho Hlt].
  - apply preserved_refl.
  - intros i e He. exists e. simpl.
    rewrite lookup_app_l by (now apply lookup_lt_Some in He).
    repeat split; [assumption | lia].
  - intros i e0 He0. simpl.
    destruct (decide (i = N.to_nat id)) as [->|Hne].
    + assert (e0 = e) as -> by congruence.
      exists (updated_entry env v e).
      rewrite list_lookup_insert_eq by (now apply lookup_lt_Some in He).
      repeat split; simpl; lia.
    + exists e0. rewrite list_lookup_insert_ne by congruence.
      repeat split; [assumption | lia].
Qed.

Lemma preserved_run txs s : preserved s (run txs s).2.
Proof.
  apply (keys_run_invariant (preserved s)); [|apply preserved_refl].
  intros env c s' Hs'. eapply preserved_trans; [exact Hs' | apply preserved_step].
Qed.

(** *** Counting *)

Lemma length_keys_run_stores txs s :
  all_storeKey txs = true -> all_ok (run txs s).1 = true ->
  length (_keys (run txs s).2) = (length (_keys s) + length txs)%nat.
Proof.
  revert s. induction txs as [|[env c] txs IH]; intros s Hst Hok.
  - simpl. lia.
  - unfold all_storeKey in Hst. simpl in Hst. apply andb_prop in Hst as [Hc Hst].
    rewrite keys_run_cons in *. unfold all_ok in Hok. simpl in Hok.
    apply andb_prop in Hok as [Hr Hok].
    destruct c; try discriminate.
    destruct (exec env _ s) as [[r|r] s'] eqn:Hex; [|discriminate].
    apply exec_storeKey_ok in Hex as (_ & _ & _ & v & _ & _ & ->).
    simpl in *. rewrite IH by assumption. simpl. rewrite length_app. simpl. lia.
Qed.

(** *** Within one timestamp *)

(** A record whose [updatedAt] is the current timestamp is not touched
    by a transaction at that timestamp. *)
Lemma frozen_step env c s (i : nat) e :
  _keys s !! i = Some e ->
  updatedAt e = to_uint64 (block_timestamp env) ->
  _keys (exec env c s).2 !! i = Some e.
Proof.
  intros He Ht.
  destruct (keys_exec_shape env c s)
    as [r|keyName encValue inputProof signature v _
       |id encValue inputProof signature v e' _ He' Ho Hlt].
  - assumption.
  - simpl. rewrite lookup_app_l by (now apply lookup_lt_Some in He). assumption.
  - simpl. destruct (decide (i = N.to_nat id)) as [->|Hne].
    + assert (e' = e) as -> by congruence. lia.
    + rewrite list_lookup_insert_ne by congruence. assumption.
Qed.

Lemma frozen_run txs s (i : nat) e (t : uint256) :
  Forall (fun tx : Env * Call => block_timestamp tx.1 = t) txs ->
  _keys s !! i = Some e ->
  updatedAt e = to_uint64 t ->
  _keys (run txs s).2 !! i = Some e.
Proof.
  intros Htxs. revert s. induction Htxs as [|[env c] txs Hx Htxs IH]; intros s He Ht.
  - assumption.
  - rewrite keys_run_cons. simpl. apply IH; [|assumption].
    simpl in Hx. subst t. now apply frozen_step.
Qed.

(** *** Counting the successful appends of any sequence *)

Lemma length_keys_step env c s :
  length (_keys (exec env c s).2) =
  (length (_keys s) + (if is_storeKey c && is_ok (exec env c s).1 then 1 else 0))%nat.
Proof.
  destruct (is_storeKey c) eqn:Hc.
  - destruct c as [keyName encValue inputProof signature| | | | | |];
      try discriminate.
    destruct (exec env (call_storeKey keyName encValue inputProof signature) s)
      as [[r|r] s'] eqn:Hex; simpl.
    + apply exec_storeKey_ok in Hex as (_ & _ & _ & v & _ & _ & ->).
      simpl. rewrite length_app. simpl. lia.
    + apply keys_exec_revert_state in Hex as ->. lia.
  - destruct (keys_exec_shape env c s)
      as [r|keyName encValue inputProof signature v ->
         |id encValue inputProof signature v e -> He Ho Hlt]; simpl.
    + lia.
    + discriminate.
    + rewrite length_insert. lia.
Qed.

Lemma length_keys_run txs s :
  length (_keys (run txs s).2) =
  (length (_keys s) + successful_appends txs (run txs s).1)%nat.
Proof.
  revert s. induction txs as [|[env c] txs IH]; intros s.
  - simpl. lia.
  - rewrite keys_run_cons. cbn [fst snd successful_appends].
    rewrite IH, length_keys_step. lia.
Qed.

End Steps.
End FrostKeyChainFacts.

(** ** ColdChainTracker: what one call does *)

Module ColdChainTrackerFacts.
Import ColdChainTracker ColdChainTrackerPost.

Section Steps.
Context `{Primitives}.

Lemma recordTemperature_run env location cargo encTemp inputProof isWarning
    signature s :
  recordTemperature env location cargo encTemp inputProof isWarning signature s =
  if negb (0 <? bytes_length location)
  then (Revert (Error "Location cannot be empty"), s)
  else if negb (0 <? bytes_length cargo)
  then (Revert (Error "Cargo description cannot be empty"), s)
  else
    let s1 := log (Call_recover (record_hash env location cargo) signature) s in
    match ECDSA_recover (record_hash env location cargo) signature with
    | inl e => (Revert (ECDSAError e), s1)
    | inr signer =>
        if signer =? msg_sender env then
          let s2 := log (Call_fromExternal (msg_sender env) encTemp inputProof) s1 in
          match FHE_fromExternal (msg_sender env) encTemp inputProof with
          | None => (Revert InvalidInputProof, s2)
          | Some v =>
              (Ok tt, recorded env location cargo encTemp inputProof isWarning
                        signature v s)
          end
        else (Revert (Error "Invalid record signature"), s1)
    end.
Proof.
  unfold recordTemperature, _verifyRecordSignature, recover, fromExternal,
    record_hash.
  unfold bind at 1. unfold require at 1.
  destruct (0 <? bytes_length location); cbn [negb]; [|reflexivity].
  unfold ret at 1. unfold bind at 1. unfold require at 1.
  destruct (0 <? bytes_length cargo); cbn [negb]; [|reflexivity].
  unfold ret at 1.
  cbv beta iota zeta.
  destruct (ECDSA_recover _ signature) as [e|signer]; [reflexivity|].
  unfold bind, modify, ret, require. cbn.
  destruct (signer =? msg_sender env); [|reflexivity].
  cbn.
  destruct (FHE_fromExternal _ encTemp inputProof) as [v|]; [|reflexivity].
  cbn. unfold lift, logs_at, logs_length, gets. cbn.
  rewrite checked_sub_length. cbn.
  rewrite index_last. cbn.
  unfold recorded, log, push_logsOf, set_logs, logsOf, new_log. cbn.
  rewrite <- !app_assoc. reflexivity.
Qed.

Lemma exec_recordTemperature env location cargo encTemp inputProof isWarning
    signature s :
  exec env (call_recordTemperature location cargo encTemp inputProof isWarning
              signature) s =
  if negb (0 <? bytes_length location)
  then (Revert (Error "Location cannot be empty"), s)
  else if negb (0 <? bytes_length cargo)
  then (Revert (Error "Cargo description cannot be empty"), s)
  else
    match ECDSA_recover (record_hash env location cargo) signature with
    | inl e => (Revert (ECDSAError e), s)
    | inr signer =>
        if signer =? msg_sender env then
          match FHE_fromExternal (msg_sender env) encTemp inputProof with
          | None => (Revert InvalidInputProof, s)
          | Some v =>
              (Ok ret_unit, recorded env location cargo encTemp inputProof
                              isWarning signature v s)
          end
        else (Revert (Error "Invalid record signature"), s)
    end.
Proof.
  unfold exec, transact, dispatch. unfold bind at 1.
  rewrite recordTemperature_run.
  destruct (0 <? bytes_length location); cbn [negb]; [|reflexivity].
  destruct (0 <? bytes_length cargo); cbn [negb]; [|reflexivity].
  cbv zeta.
  destruct (ECDSA_recover _ signature) as [e|signer]; [reflexivity|].
  destruct (signer =? msg_sender env); [|reflexivity].
  destruct (FHE_fromExternal _ encTemp inputProof); reflexivity.
Qed.

Lemma exec_recordTemperature_ok env location cargo encTemp inputProof isWarning
    signature s r s' :
  exec env (call_recordTemperature location cargo encTemp inputProof isWarning
              signature) s = (Ok r, s') ->
  0 < bytes_length location /\ 0 < bytes_length cargo /\
  ECDSA_recover (record_hash env location cargo) signature = inr (msg_sender env) /\
  exists v, FHE_fromExternal (msg_sender env) encTemp inputProof = Some v /\
    r = ret_unit /\
    s' = recorded env location cargo encTemp inputProof isWarning signature v s.
Proof.
  rewrite exec_recordTemperature.
  destruct (N.ltb_spec 0 (bytes_length location)); cbn [negb]; [|discriminate].
  destruct (N.ltb_spec 0 (bytes_length cargo)); cbn [negb]; [|discriminate].
  destruct (ECDSA_recover _ signature) as [e|signer]; [discriminate|].
  destruct (N.eqb_spec signer (msg_sender env)) as [->|]; [|discriminate].
  destruct (FHE_fromExternal _ encTemp inputProof) as [v|]; [|discriminate].
  intros [= <- <-]. repeat split; try assumption. now exists v.
Qed.

Lemma exec_getTotalLogCount env s :
  exec env call_getTotalLogCount s = (Ok (ret_uint (N.of_nat (length (_logs s)))), s).
Proof. reflexivity. Qed.

Lemma exec_getLogCountByRecorder env o s :
  exec env (call_getLogCountByRecorder o) s =
  (Ok (ret_uint (N.of_nat (length (logsOf s o)))), s).
Proof. reflexivity. Qed.

Lemma exec_getLogIdsByRecorder env o s :
  exec env (call_getLogIdsByRecorder o) s = (Ok (ret_ids (logsOf s o)), s).
Proof. reflexivity. Qed.

Lemma getLogMeta_run id s :
  getLogMeta id s =
  match _logs s !! N.to_nat id with
  | Some l => (Ok (recorder l, location l, cargo l, timestamp l, isWarning l), s)
  | None => (Revert (Error "Log does not exist"), s)
  end.
Proof.
  unfold getLogMeta, bind, logs_length, gets, require, logs_at, index, ret, revert.
  destruct (N.ltb_spec id (N.of_nat (length (_logs s)))) as [Hlt|Hge].
  - destruct (index_in_range (_logs s) id Hlt) as (e & He & _). now rewrite He.
  - rewrite lookup_ge_None_2 by lia. reflexivity.
Qed.

Lemma getEncryptedTemperature_run id s :
  getEncryptedTemperature id s =
  match _logs s !! N.to_nat id with
  | Some l => (Ok (encryptedTemperature l), s)
  | None => (Revert (Error "Log does not exist"), s)
  end.
Proof.
  unfold getEncryptedTemperature, bind, logs_length, gets, require, logs_at,
    index, ret, revert.
  destruct (N.ltb_spec id (N.of_nat (length (_logs s)))) as [Hlt|Hge].
  - destruct (index_in_range (_logs s) id Hlt) as (e & He & _). now rewrite He.
  - rewrite lookup_ge_None_2 by lia. reflexivity.
Qed.

Lemma exec_getLogMeta env id s :
  exec env (call_getLogMeta id) s =
  match _logs s !! N.to_nat id with
  | Some l =>
      (Ok (ret_meta (recorder l, location l, cargo l, timestamp l, isWarning l)), s)
  | None => (Revert (Error "Log does not exist"), s)
  end.
Proof.
  unfold exec, transact, dispatch. unfold bind at 1. rewrite getLogMeta_run.
  destruct (_logs s !! N.to_nat id); reflexivity.
Qed.

Lemma exec_getEncryptedTemperature env id s :
  exec env (call_getEncryptedTemperature id) s =
  match _logs s !! N.to_nat id with
  | Some l => (Ok (ret_handle (encryptedTemperature l)), s)
  | None => (Revert (Error "Log does not exist"), s)
  end.
Proof.
  unfold exec, transact, dispatch. unfold bind at 1.
  rewrite getEncryptedTemperature_run.
  destruct (_logs s !! N.to_nat id); reflexivity.
Qed.

(** *** The two loops *)

Lemma checked_add_1 (k len : nat) :
  (k < len)%nat -> N.of_nat len <= MAX_UINT256 ->
  checked_add (N.of_nat k) 1 = Ok (N.of_nat (S k)).
Proof.
  intros Hk Hlen. unfold checked_add.
  destruct (N.leb_spec (N.of_nat k + 1) MAX_UINT256) as [_|Hgt]; [|lia].
  f_equal. lia.
Qed.

Lemma memory_store_next (k len : nat) :
  (k < len)%nat ->
  memory_store (Spec.dense_ids k ++ replicate (len - k) 0) (N.of_nat k) (N.of_nat k) =
  Ok (Spec.dense_ids (S k) ++ replicate (len - S k) 0).
Proof.
  intros Hk. unfold memory_store.
  rewrite length_app, length_dense_ids, length_replicate.
  destruct (N.ltb_spec (N.of_nat k) (N.of_nat (k + (len - k)))) as [_|Hge]; [|lia].
  f_equal. rewrite Nat2N.id.
  replace (len - k)%nat with (S (len - S k)) by lia.
  rewrite insert_app_r_alt by (rewrite length_dense_ids; lia).
  rewrite length_dense_ids, Nat.sub_diag.
  rewrite dense_ids_S, <- app_assoc. reflexivity.
Qed.

(** With the array filled up to [k], the loop fills the rest; it needs
    the loop condition evaluated [len - k + 1] times. *)
Lemma getAllLogIds_loop_run gas k s :
  (k <= length (_logs s))%nat ->
  (length (_logs s) - k < gas)%nat ->
  N.of_nat (length (_logs s)) <= MAX_UINT256 ->
  getAllLogIds_loop gas (N.of_nat k)
    (Spec.dense_ids k ++ replicate (length (_logs s) - k) 0) s =
  (Ok (Spec.dense_ids (length (_logs s))), s).
Proof.
  revert k. induction gas as [|gas IH]; intros k Hk Hgas Hmax; [lia|].
  cbn [getAllLogIds_loop]. unfold bind at 1, logs_length at 1, gets at 1.
  destruct (N.ltb_spec (N.of_nat k) (N.of_nat (length (_logs s)))) as [Hlt|Hge].
  - unfold bind at 1, lift at 1.
    rewrite memory_store_next by lia.
    unfold bind at 1, lift at 1.
    rewrite (checked_add_1 k (length (_logs s))) by (lia || assumption).
    apply IH; [lia | lia | assumption].
  - assert (k = length (_logs s)) as -> by lia.
    rewrite Nat.sub_diag. simpl. now rewrite app_nil_r.
Qed.

Lemma getAllLogIds_run s :
  N.of_nat (length (_logs s)) <= MAX_UINT256 ->
  getAllLogIds s = (Ok (Spec.dense_ids (length (_logs s))), s).
Proof.
  intros Hmax. unfold getAllLogIds, bind, logs_length, gets.
  rewrite Nat2N.id.
  pose proof (getAllLogIds_loop_run (S (length (_logs s))) 0 s) as Hloop.
  simpl Spec.dense_ids in Hloop at 1. rewrite Nat.sub_0_r in Hloop.
  apply Hloop; [lia | lia | assumption].
Qed.

Lemma exec_getAllLogIds env s :
  N.of_nat (length (_logs s)) <= MAX_UINT256 ->
  exec env call_getAllLogIds s =
  (Ok (ret_ids (Spec.dense_ids (length (_logs s)))), s).
Proof.
  intros Hmax. unfold exec, transact, dispatch. unfold bind at 1.
  now rewrite getAllLogIds_run.
Qed.

(** With the first [k] records counted, the loop counts the rest. *)
Lemma getStats_loop_run gas k s :
  (k <= length (_logs s))%nat ->
  (length (_logs s) - k < gas)%nat ->
  N.of_nat (length (_logs s)) <= MAX_UINT256 ->
  getStats_loop gas (N.of_nat k) (Spec.flagged_count isWarning (take k (_logs s))) s =
  (Ok (Spec.flagged_count isWarning (_logs s)), s).
Proof.
  revert k. induction gas as [|gas IH]; intros k Hk Hgas Hmax; [lia|].
  cbn [getStats_loop]. unfold bind at 1, logs_length at 1, gets at 1.
  destruct (N.ltb_spec (N.of_nat k) (N.of_nat (length (_logs s)))) as [Hlt|Hge].
  - destruct (lookup_lt_is_Some_2 (_logs s) k) as [l Hl]; [lia|].
    unfold bind at 1, logs_at at 1.
    rewrite (index_lookup _ _ _ Hl).
    pose proof (flagged_count_le isWarning (take (S k) (_logs s))) as Hle.
    rewrite length_take in Hle.
    rewrite (take_S_r _ _ _ Hl), flagged_count_snoc in Hle.
    assert (Hnext :
      (if isWarning l
       then lift (checked_add (Spec.flagged_count isWarning (take k (_logs s))) 1)
       else ret (Spec.flagged_count isWarning (take k (_logs s)))) s =
      (Ok (Spec.flagged_count isWarning (take (S k) (_logs s))), s)).
    { rewrite (take_S_r _ _ _ Hl), flagged_count_snoc.
      destruct (isWarning l).
      - unfold lift, checked_add.
        destruct (N.leb_spec
          (Spec.flagged_count isWarning (take k (_logs s)) + 1) MAX_UINT256)
          as [_|Hgt]; [reflexivity|lia].
      - unfold ret. now rewrite N.add_0_r. }
    unfold bind at 1. rewrite Hnext.
    unfold bind at 1, lift at 1.
    rewrite (checked_add_1 k (length (_logs s))) by (lia || assumption).
    apply IH; [lia | lia | assumption].
  - rewrite firstn_all2 by lia. reflexivity.
Qed.

Lemma getStats_run s :
  N.of_nat (length (_logs s)) <= MAX_UINT256 ->
  getStats s =
  (Ok (N.of_nat (length (_logs s)), Spec.flagged_count isWarning (_logs s)), s).
Proof.
  intros Hmax. unfold getStats. unfold bind at 1, logs_length at 1, gets at 1.
  unfold bind at 1.
  pose proof (getStats_loop_run (S (length (_logs s))) 0 s) as Hloop.
  rewrite take_0 in Hloop. change (Spec.flagged_count isWarning []) with 0 in Hloop.
  change (N.of_nat 0) with 0 in Hloop.
  rewrite Hloop by (lia || assumption). reflexivity.
Qed.

Lemma exec_getStats env s :
  N.of_nat (length (_logs s)) <= MAX_UINT256 ->
  exec env call_getStats s =
  (Ok (ret_stats (N.of_nat (length (_logs s)),
                  Spec.flagged_count isWarning (_logs s))), s).
Proof.
  intros Hmax. unfold exec, transact, dispatch. unfold bind at 1.
  now rewrite getStats_run.
Qed.

(** *** Transactions and sequences of transactions *)

(** The loops read the storage and leave it as it is, however far they
    get. *)
Lemma getAllLogIds_loop_state gas i ids s :
  (getAllLogIds_loop gas i ids s).2 = s.
Proof.
  revert i ids. induction gas as [|gas IH]; intros i ids; [reflexivity|].
  cbn [getAllLogIds_loop]. unfold bind at 1, logs_length at 1, gets at 1.
  destruct (i <? N.of_nat (length (_logs s))); [|reflexivity].
  unfold bind at 1, lift at 1.
  destruct (memory_store ids i i); [|reflexivity].
  unfold bind at 1, lift at 1.
  destruct (checked_add i 1); [|reflexivity].
  apply IH.
Qed.

Lemma getStats_loop_state gas i warningCount s :
  (getStats_loop gas i warningCount s).2 = s.
Proof.
  revert i warningCount. induction gas as [|gas IH]; intros i wc; [reflexivity|].
  cbn [getStats_loop]. unfold bind at 1, logs_length at 1, gets at 1.
  destruct (i <? N.of_nat (length (_logs s))); [|reflexivity].
  unfold bind at 1, logs_at at 1.
  destruct (index (_logs s) i) as [l|]; [|reflexivity].
  unfold bind at 1.
  destruct (isWarning l).
  - unfold lift at 1. destruct (checked_add wc 1); [|reflexivity].
    unfold bind at 1, lift at 1.
    destruct (checked_add i 1); [|reflexivity]. apply IH.
  - unfold ret at 1. unfold bind at 1, lift at 1.
    destruct (checked_add i 1); [|reflexivity]. apply IH.
Qed.

Lemma getAllLogIds_state s : (getAllLogIds s).2 = s.
Proof.
  unfold getAllLogIds, bind, logs_length, gets. apply getAllLogIds_loop_state.
Qed.

Lemma getStats_state s : (getStats s).2 = s.
Proof.
  unfold getStats. unfold bind at 1, logs_length at 1, gets at 1.
  unfold bind at 1.
  pose proof (getStats_loop_state (S (length (_logs s))) 0 0 s) as Hl.
  destruct (getStats_loop (S (length (_logs s))) 0 0 s) as [[w|r] s']; exact Hl.
Qed.

Lemma logs_exec_shape env c s :
  step_shape env c s (exec env c s).1 (exec env c s).2.
Proof.
  destruct c as [location cargo encTemp inputProof isWarning signature
                |id|o|o| |id| |].
  - rewrite exec_recordTemperature.
    destruct (0 <? bytes_length location); cbn [negb]; [|constructor].
    destruct (0 <? bytes_length cargo); cbn [negb]; [|constructor].
    destruct (ECDSA_recover _ signature) as [e|signer]; [constructor|].
    destruct (signer =? msg_sender env); [|constructor].
    destruct (FHE_fromExternal _ encTemp inputProof); [|constructor].
    now eapply shape_recorded.
  - rewrite exec_getLogMeta. destruct (_logs s !! N.to_nat id); constructor.
  - constructor.
  - constructor.
  - unfold exec, transact, dispatch, bind.
    pose proof (getAllLogIds_state s) as Hs.
    destruct (getAllLogIds s) as [[ids|r] s']; simpl in Hs; subst s'; constructor.
  - rewrite exec_getEncryptedTemperature.
    destruct (_logs s !! N.to_nat id); constructor.
  - constructor.
  - unfold exec, transact, dispatch, bind.
    pose proof (getStats_state s) as Hs.
    destruct (getStats s) as [[p|r] s']; simpl in Hs; subst s'; constructor.
Qed.

Lemma logs_exec_revert_state env c s r s' :
  exec env c s = (Revert r, s') -> s' = s.
Proof. apply transact_revert_state. Qed.

Lemma logs_run_cons env c txs s :
  run ((env, c) :: txs) s =
  ((exec env c s).1 :: (run txs (exec env c s).2).1, (run txs (exec env c s).2).2).
Proof.
  simpl. destruct (exec env c s) as [r s']. simpl.
  destruct (run txs s') as [rs s'']. reflexivity.
Qed.

Lemma logs_run_invariant (P : State -> Prop) :
  (forall env c s, P s -> P (exec env c s).2) ->
  forall txs s, P s -> P (run txs s).2.
Proof.
  intros Hstep txs. induction txs as [|[env c] txs IH]; intros s Hs; [exact Hs|].
  rewrite logs_run_cons. simpl. apply IH, Hstep, Hs.
Qed.

(** *** The recorder index *)

Lemma logs_index_inv_init : index_inv init.
Proof. intros o. reflexivity. Qed.

Lemma logsOf_recorded env location cargo encTemp inputProof isWarning signature
    v s o :
  logsOf (recorded env location cargo encTemp inputProof isWarning signature v s) o =
  logsOf s o ++
    (if msg_sender env =? o then [N.of_nat (length (_logs s))] else []).
Proof.
  unfold logsOf at 1. simpl.
  destruct (N.eqb_spec (msg_sender env) o) as [->|Hne].
  - now rewrite lookup_insert_eq.
  - rewrite lookup_insert_ne by assumption. now rewrite app_nil_r.
Qed.

Lemma logs_index_inv_step env c s : index_inv s -> index_inv (exec env c s).2.
Proof.
  intros Hinv. destruct (logs_exec_shape env c s) as [r|]; [assumption|].
  intros o. rewrite logsOf_recorded, Hinv. simpl.
  now rewrite owned_ids_snoc.
Qed.

Lemma logs_index_inv_run txs : index_inv (run txs init).2.
Proof. apply logs_run_invariant; [apply logs_index_inv_step | apply logs_index_inv_init]. Qed.

(** *** Records are kept as they were appended *)

Lemma logs_prefix_step env c s : _logs s `prefix_of` _logs (exec env c s).2.
Proof.
  destruct (logs_exec_shape env c s) as [r|]; [reflexivity|].
  simpl. now apply prefix_app_r.
Qed.

Lemma logs_prefix_run txs s : _logs s `prefix_of` _logs (run txs s).2.
Proof.
  apply (logs_run_invariant (fun s' => _logs s `prefix_of` _logs s')); [|reflexivity].
  intros env c s' Hs'. etransitivity; [exact Hs' | apply logs_prefix_step].
Qed.

(** *** Counting *)

Lemma length_logs_run_records txs s :
  all_recordTemperature txs = true -> all_ok (run txs s).1 = true ->
  length (_logs (run txs s).2) = (length (_logs s) + length txs)%nat.
Proof.
  revert s. induction txs as [|[env c] txs IH]; intros s Hst Hok.
  - simpl. lia.
  - unfold all_recordTemperature in Hst. simpl in Hst.
    apply andb_prop in Hst as [Hc Hst].
    rewrite logs_run_cons in *. unfold all_ok in Hok. simpl in Hok.
    apply andb_prop in Hok as [Hr Hok].
    destruct c; try discriminate.
    destruct (exec env _ s) as [[r|r] s'] eqn:Hex; [|discriminate].
    apply exec_recordTemperature_ok in Hex as (_ & _ & _ & v & _ & _ & ->).
    simpl in *. rewrite IH by assumption. simpl. rewrite length_app. simpl. lia.
Qed.

(** The scan of [getStats] visits every record: with the condition
    evaluated at most [len - k] times it is not finished. *)
Lemma getStats_loop_short gas k wc s :
  (k <= length (_logs s))%nat ->
  (gas <= length (_logs s) - k)%nat ->
  N.of_nat (length (_logs s)) <= MAX_UINT256 ->
  wc <= N.of_nat k ->
  getStats_loop gas (N.of_nat k) wc s = (Revert OutOfGas, s).
Proof.
  revert k wc. induction gas as [|gas IH]; intros k wc Hk Hgas Hmax Hwc;
    [reflexivity|].
  cbn [getStats_loop]. unfold bind at 1, logs_length at 1, gets at 1.
  destruct (N.ltb_spec (N.of_nat k) (N.of_nat (length (_logs s)))) as [Hlt|Hge];
    [|lia].
  destruct (lookup_lt_is_Some_2 (_logs s) k) as [l Hl]; [lia|].
  unfold bind at 1, logs_at at 1. rewrite (index_lookup _ _ _ Hl).
  unfold bind at 1.
  destruct (isWarning l).
  - unfold lift at 1, checked_add at 1.
    destruct (N.leb_spec (wc + 1) MAX_UINT256) as [_|Hgt]; [|lia].
    unfold bind at 1, lift at 1.
    rewrite (checked_add_1 k (length (_logs s))) by (lia || assumption).
    apply IH; [lia | lia | assumption | lia].
  - unfold ret at 1. unfold bind at 1, lift at 1.
    rewrite (checked_add_1 k (length (_logs s))) by (lia || assumption).
    apply IH; [lia | lia | assumption | lia].
Qed.

(** *** Counting the successful appends of any sequence *)

Lemma length_logs_step env c s :
  length (_logs (exec env c s).2) =
  (length (_logs s) +
   (if is_recordTemperature c && is_ok (exec env c s).1 then 1 else 0))%nat.
Proof.
  destruct (is_recordTemperature c) eqn:Hc.
  - destruct c as [location cargo encTemp inputProof isWarning signature
                  | | | | | | |]; try discriminate.
    destruct (exec env (call_recordTemperature location cargo encTemp inputProof
                          isWarning signature) s) as [[r|r] s'] eqn:Hex; simpl.
    + apply exec_recordTemperature_ok in Hex as (_ & _ & _ & v & _ & _ & ->).
      simpl. rewrite length_app. simpl. lia.
    + apply logs_exec_revert_state in Hex as ->. lia.
  - destruct (logs_exec_shape env c s)
      as [r|location cargo encTemp inputProof isWarning signature v ->]; simpl.
    + lia.
    + discriminate.
Qed.

Lemma length_logs_run txs s :
  length (_logs (run txs s).2) =
  (length (_logs s) + successful_appends txs (run txs s).1)%nat.
Proof.
  revert s. induction txs as [|[env c] txs IH]; intros s.
  - simpl. lia.
  - rewrite logs_run_cons. cbn [fst snd successful_appends].
    rewrite IH, length_logs_step. lia.
Qed.

End Steps.
End ColdChainTrackerFacts.

(** * The claims of the specification *)

(** C1. After N successful appends ([storeKey], [recordTemperature]) from
    the empty ledger the total count ([getTotalKeyCount],
    [getTotalLogCount]) is N and [getAllLogIds] returns [0; ...; N-1]
    (N a [uint256]); the same holds with N the number of successful
    appends of any sequence of calls. A successful append puts the new
    record at the end of the array and gives it the length the array had
    before as its id, in the owner index and in the event. *)
Theorem append_counts_and_ids `{Primitives} :
  (forall (txs : list (Env * FrostKeyChain.Call)) (env : Env),
     FrostKeyChainPost.all_storeKey txs = true ->
     FrostKeyChainPost.all_ok (FrostKeyChain.run txs FrostKeyChain.init).1 = true ->
     FrostKeyChain.exec env FrostKeyChain.call_getTotalKeyCount
       (FrostKeyChain.run txs FrostKeyChain.init).2 =
     (Ok (FrostKeyChain.ret_uint (N.of_nat (length txs))),
      (FrostKeyChain.run txs FrostKeyChain.init).2)) /\
  (forall (txs : list (Env * ColdChainTracker.Call)) (env : Env),
     ColdChainTrackerPost.all_recordTemperature txs = true ->
     ColdChainTrackerPost.all_ok (ColdChainTracker.run txs ColdChainTracker.init).1 = true ->
     ColdChainTracker.exec env ColdChainTracker.call_getTotalLogCount
       (ColdChainTracker.run txs ColdChainTracker.init).2 =
     (Ok (ColdChainTracker.ret_uint (N.of_nat (length txs))),
      (ColdChainTracker.run txs ColdChainTracker.init).2) /\
     (N.of_nat (length txs) <= MAX_UINT256 ->
      ColdChainTracker.exec env ColdChainTracker.call_getAllLogIds
        (ColdChainTracker.run txs ColdChainTracker.init).2 =
      (Ok (ColdChainTracker.ret_ids (Spec.dense_ids (length txs))),
       (ColdChainTracker.run txs ColdChainTracker.init).2))) /\
  (forall (txs : list (Env * FrostKeyChain.Call)) (env : Env),
     let n := FrostKeyChainPost.successful_appends txs
                (FrostKeyChain.run txs FrostKeyChain.init).1 in
     FrostKeyChain.exec env FrostKeyChain.call_getTotalKeyCount
       (FrostKeyChain.run txs FrostKeyChain.init).2 =
     (Ok (FrostKeyChain.ret_uint (N.of_nat n)),
      (FrostKeyChain.run txs FrostKeyChain.init).2)) /\
  (forall (txs : list (Env * ColdChainTracker.Call)) (env : Env),
     let n := ColdChainTrackerPost.successful_appends txs
                (ColdChainTracker.run txs ColdChainTracker.init).1 in
     ColdChainTracker.exec env ColdChainTracker.call_getTotalLogCount
       (ColdChainTracker.run txs ColdChainTracker.init).2 =
     (Ok (ColdChainTracker.ret_uint (N.of_nat n)),
      (ColdChainTracker.run txs ColdChainTracker.init).2) /\
     (N.of_nat n <= MAX_UINT256 ->
      ColdChainTracker.exec env ColdChainTracker.call_getAllLogIds
        (ColdChainTracker.run txs ColdChainTracker.init).2 =
      (Ok (ColdChainTracker.ret_ids (Spec.dense_ids n)),
       (ColdChainTracker.run txs ColdChainTracker.init).2))) /\
  (forall env keyName encValue inputProof signature s r s',
     FrostKeyChain.exec env
       (FrostKeyChain.call_storeKey keyName encValue inputProof signature) s = (Ok r, s') ->
     let id := N.of_nat (length (FrostKeyChain._keys s)) in
     exists e,
       FrostKeyChain._keys s' = FrostKeyChain._keys s ++ [e] /\
       FrostKeyChain._keys s' !! N.to_nat id = Some e /\
       FrostKeyChain.keysOf s' (msg_sender env) =
         FrostKeyChain.keysOf s (msg_sender env) ++ [id] /\
       last (FrostKeyChain.effects s') =
         Some (Emit (FrostKeyChain.KeyStored id (msg_sender env) keyName
                       (FrostKeyChain.createdAt e)))) /\
  (forall env location cargo encTemp inputProof isWarning signature s r s',
     ColdChainTracker.exec env
       (ColdChainTracker.call_recordTemperature location cargo encTemp inputProof
          isWarning signature) s = (Ok r, s') ->
     let id := N.of_nat (length (ColdChainTracker._logs s)) in
     exists l,
       ColdChainTracker._logs s' = ColdChainTracker._logs s ++ [l] /\
       ColdChainTracker._logs s' !! N.to_nat id = Some l /\
       ColdChainTracker.logsOf s' (msg_sender env) =
         ColdChainTracker.logsOf s (msg_sender env) ++ [id] /\
       last (ColdChainTracker.effects s') =
         Some (Emit (ColdChainTracker.TemperatureRecorded id (msg_sender env)
                       location cargo (ColdChainTracker.timestamp l) isWarning))).
Proof.
  split; [|split; [|split; [|split; [|split]]]].
  - intros txs env Hst Hok.
    rewrite FrostKeyChainFacts.exec_getTotalKeyCount.
    now rewrite (FrostKeyChainFacts.length_keys_run_stores txs _ Hst Hok).
  - intros txs env Hst Hok.
    pose proof (ColdChainTrackerFacts.length_logs_run_records txs _ Hst Hok) as Hlen.
    simpl in Hlen. split.
    + rewrite ColdChainTrackerFacts.exec_getTotalLogCount. now rewrite Hlen.
    + intros Hmax. rewrite ColdChainTrackerFacts.exec_getAllLogIds; rewrite Hlen;
        [reflexivity | assumption].
  - intros txs env n.
    rewrite FrostKeyChainFacts.exec_getTotalKeyCount.
    now rewrite (FrostKeyChainFacts.length_keys_run txs FrostKeyChain.init).
  - intros txs env n.
    pose proof (ColdChainTrackerFacts.length_logs_run txs ColdChainTracker.init) as Hlen.
    simpl in Hlen. fold n in Hlen. split.
    + rewrite ColdChainTrackerFacts.exec_getTotalLogCount. now rewrite Hlen.
    + intros Hmax. rewrite ColdChainTrackerFacts.exec_getAllLogIds; rewrite Hlen;
        [reflexivity | assumption].
  - intros env keyName encValue inputProof signature s r s' Hex id.
    apply FrostKeyChainFacts.exec_storeKey_ok in Hex as (_ & _ & _ & v & _ & _ & ->).
    exists (FrostKeyChainPost.new_entry env keyName v). repeat split.
    + unfold id. rewrite Nat2N.id. simpl. now rewrite list_lookup_middle.
    + unfold FrostKeyChain.keysOf at 1. simpl. now rewrite lookup_insert_eq.
    + simpl. now rewrite last_app.
  - intros env location cargo encTemp inputProof isWarning signature s r s' Hex id.
    apply ColdChainTrackerFacts.exec_recordTemperature_ok in Hex
      as (_ & _ & _ & v & _ & _ & ->).
    exists (ColdChainTrackerPost.new_log env location cargo v isWarning). repeat split.
    + unfold id. rewrite Nat2N.id. simpl. now rewrite list_lookup_middle.
    + unfold ColdChainTracker.logsOf at 1. simpl. now rewrite lookup_insert_eq.
    + simpl. now rewrite last_app.
Qed.

(** The three keys and the three logs of the scenarios: count 3, ids 0, 1, 2. *)
Lemma append_counts_and_ids_witness :
  FrostKeyChain.exec (H := Toy.primitives) (Scenario.at_time Toy.bob 13)
    FrostKeyChain.call_getTotalKeyCount Scenario.keys3 =
  (Ok (FrostKeyChain.ret_uint 3), Scenario.keys3) /\
  ColdChainTracker.exec (H := Toy.primitives) (Scenario.at_time Toy.bob 13)
    ColdChainTracker.call_getAllLogIds Scenario.logs3 =
  (Ok (ColdChainTracker.ret_ids [0; 1; 2]), Scenario.logs3).
Proof.
  destruct (append_counts_and_ids (H := Toy.primitives)) as (Hkeys & Hlogs & _).
  split.
  - apply (Hkeys Scenario.three_keys); reflexivity.
  - apply (Hlogs Scenario.three_logs); [reflexivity | reflexivity |].
    vm_compute. discriminate.
Defined.

(** C3. After any sequence of calls from the empty ledger, and for every
    owner, [getKeyIdsByOwner] / [getLogIdsByRecorder] return the ids of
    the records whose owner field is that owner, in the order of their
    appends (increasing ids); every id returned is the id of a record of
    that owner and every such id is returned; [getKeyCountByOwner] /
    [getLogCountByRecorder] return the length of that list, and 0 without
    error for an owner the mapping has no entry for. *)
Theorem ids_by_owner_are_the_owned_ids `{Primitives} :
  (forall (txs : list (Env * FrostKeyChain.Call)) (o : address) (env : Env),
     let s := (FrostKeyChain.run txs FrostKeyChain.init).2 in
     let ids := Spec.owned_ids FrostKeyChain.owner o (FrostKeyChain._keys s) in
     FrostKeyChain.exec env (FrostKeyChain.call_getKeyIdsByOwner o) s =
       (Ok (FrostKeyChain.ret_ids ids), s) /\
     FrostKeyChain.exec env (FrostKeyChain.call_getKeyCountByOwner o) s =
       (Ok (FrostKeyChain.ret_uint (N.of_nat (length ids))), s) /\
     StronglySorted N.lt ids /\
     (forall id, id ∈ ids <->
        exists e, FrostKeyChain._keys s !! N.to_nat id = Some e /\
                  FrostKeyChain.owner e = o)) /\
  (forall (txs : list (Env * ColdChainTracker.Call)) (o : address) (env : Env),
     let s := (ColdChainTracker.run txs ColdChainTracker.init).2 in
     let ids := Spec.owned_ids ColdChainTracker.recorder o (ColdChainTracker._logs s) in
     ColdChainTracker.exec env (ColdChainTracker.call_getLogIdsByRecorder o) s =
       (Ok (ColdChainTracker.ret_ids ids), s) /\
     ColdChainTracker.exec env (ColdChainTracker.call_getLogCountByRecorder o) s =
       (Ok (ColdChainTracker.ret_uint (N.of_nat (length ids))), s) /\
     StronglySorted N.lt ids /\
     (forall id, id ∈ ids <->
        exists l, ColdChainTracker._logs s !! N.to_nat id = Some l /\
                  ColdChainTracker.recorder l = o)) /\
  (forall (s : FrostKeyChain.State) (o : address) (env : Env),
     FrostKeyChain._keysOf s !! o = None ->
     FrostKeyChain.exec env (FrostKeyChain.call_getKeyCountByOwner o) s =
       (Ok (FrostKeyChain.ret_uint 0), s) /\
     FrostKeyChain.exec env (FrostKeyChain.call_getKeyIdsByOwner o) s =
       (Ok (FrostKeyChain.ret_ids []), s)) /\
  (forall (s : ColdChainTracker.State) (o : address) (env : Env),
     ColdChainTracker._logsOf s !! o = None ->
     ColdChainTracker.exec env (ColdChainTracker.call_getLogCountByRecorder o) s =
       (Ok (ColdChainTracker.ret_uint 0), s) /\
     ColdChainTracker.exec env (ColdChainTracker.call_getLogIdsByRecorder o) s =
       (Ok (ColdChainTracker.ret_ids []), s)).
Proof.
  split; [|split; [|split]].
  - intros txs o env s ids.
    pose proof (FrostKeyChainFacts.keys_index_inv_run txs o) as Hinv. fold s in Hinv.
    rewrite FrostKeyChainFacts.exec_getKeyIdsByOwner,
      FrostKeyChainFacts.exec_getKeyCountByOwner, Hinv.
    repeat split; try reflexivity.
    + apply owned_ids_sorted.
    + apply elem_of_owned_ids.
    + apply elem_of_owned_ids.
  - intros txs o env s ids.
    pose proof (ColdChainTrackerFacts.logs_index_inv_run txs o) as Hinv. fold s in Hinv.
    rewrite ColdChainTrackerFacts.exec_getLogIdsByRecorder,
      ColdChainTrackerFacts.exec_getLogCountByRecorder, Hinv.
    repeat split; try reflexivity.
    + apply owned_ids_sorted.
    + apply elem_of_owned_ids.
    + apply elem_of_owned_ids.
  - intros s o env Hnone.
    rewrite FrostKeyChainFacts.exec_getKeyIdsByOwner,
      FrostKeyChainFacts.exec_getKeyCountByOwner.
    unfold FrostKeyChain.keysOf. rewrite Hnone. split; reflexivity.
  - intros s o env Hnone.
    rewrite ColdChainTrackerFacts.exec_getLogIdsByRecorder,
      ColdChainTrackerFacts.exec_getLogCountByRecorder.
    unfold ColdChainTracker.logsOf. rewrite Hnone. split; reflexivity.
Qed.

(** [bob] owns no key; the three logs are [alice]'s. *)
Lemma ids_by_owner_are_the_owned_ids_witness :
  FrostKeyChain.exec (H := Toy.primitives) (Scenario.at_time Toy.alice 13)
    (FrostKeyChain.call_getKeyCountByOwner Toy.bob) Scenario.keys3 =
  (Ok (FrostKeyChain.ret_uint 0), Scenario.keys3) /\
  ColdChainTracker.exec (H := Toy.primitives) (Scenario.at_time Toy.alice 13)
    (ColdChainTracker.call_getLogIdsByRecorder Toy.alice) Scenario.logs3 =
  (Ok (ColdChainTracker.ret_ids [0; 1; 2]), Scenario.logs3).
Proof.
  destruct (ids_by_owner_are_the_owned_ids (H := Toy.primitives))
    as (_ & Hlogs & Hunknown & _).
  split.
  - apply Hunknown. reflexivity.
  - apply (Hlogs Scenario.three_logs Toy.alice).
Defined.

(** C4. In every state and for every id, [getKeyMeta], [getEncryptedValue],
    [getLogMeta] and [getEncryptedTemperature] revert with the message of
    NotFound exactly when the id is at least the total count, return the
    fields of the record with that id when it is below, and leave the
    state as it is in both cases. *)
Theorem reads_fail_iff_out_of_range `{Primitives} :
  (forall (s : FrostKeyChain.State) (env : Env) (id : uint256),
     let total := N.of_nat (length (FrostKeyChain._keys s)) in
     FrostKeyChain.exec env FrostKeyChain.call_getTotalKeyCount s =
       (Ok (FrostKeyChain.ret_uint total), s) /\
     (total <= id <->
        exists r, FrostKeyChain.exec env (FrostKeyChain.call_getKeyMeta id) s =
                    (Revert r, s) /\ classify r = NotFound) /\
     (total <= id <->
        exists r, FrostKeyChain.exec env (FrostKeyChain.call_getEncryptedValue id) s =
                    (Revert r, s) /\ classify r = NotFound) /\
     (id < total ->
        exists e, FrostKeyChain._keys s !! N.to_nat id = Some e /\
          FrostKeyChain.exec env (FrostKeyChain.call_getKeyMeta id) s =
            (Ok (FrostKeyChain.ret_meta
                   (FrostKeyChain.owner e, FrostKeyChain.keyName e,
                    FrostKeyChain.createdAt e, FrostKeyChain.updatedAt e)), s) /\
          FrostKeyChain.exec env (FrostKeyChain.call_getEncryptedValue id) s =
            (Ok (FrostKeyChain.ret_handle (FrostKeyChain.encryptedValue e)), s)) /\
     (FrostKeyChain.exec env (FrostKeyChain.call_getKeyMeta id) s).2 = s /\
     (FrostKeyChain.exec env (FrostKeyChain.call_getEncryptedValue id) s).2 = s) /\
  (forall (s : ColdChainTracker.State) (env : Env) (id : uint256),
     let total := N.of_nat (length (ColdChainTracker._logs s)) in
     ColdChainTracker.exec env ColdChainTracker.call_getTotalLogCount s =
       (Ok (ColdChainTracker.ret_uint total), s) /\
     (total <= id <->
        exists r, ColdChainTracker.exec env (ColdChainTracker.call_getLogMeta id) s =
                    (Revert r, s) /\ classify r = NotFound) /\
     (total <= id <->
        exists r, ColdChainTracker.exec env
                    (ColdChainTracker.call_getEncryptedTemperature id) s =
                    (Revert r, s) /\ classify r = NotFound) /\
     (id < total ->
        exists l, ColdChainTracker._logs s !! N.to_nat id = Some l /\
          ColdChainTracker.exec env (ColdChainTracker.call_getLogMeta id) s =
            (Ok (ColdChainTracker.ret_meta
                   (ColdChainTracker.recorder l, ColdChainTracker.location l,
                    ColdChainTracker.cargo l, ColdChainTracker.timestamp l,
                    ColdChainTracker.isWarning l)), s) /\
          ColdChainTracker.exec env (ColdChainTracker.call_getEncryptedTemperature id) s =
            (Ok (ColdChainTracker.ret_handle (ColdChainTracker.encryptedTemperature l)),
             s)) /\
     (ColdChainTracker.exec env (ColdChainTracker.call_getLogMeta id) s).2 = s /\
     (ColdChainTracker.exec env (ColdChainTracker.call_getEncryptedTemperature id) s).2
       = s).
Proof.
  split.
  - intros s env id total.
    rewrite FrostKeyChainFacts.exec_getKeyMeta,
      FrostKeyChainFacts.exec_getEncryptedValue.
    split; [reflexivity|].
    destruct (FrostKeyChain._keys s !! N.to_nat id) as [e|] eqn:He.
    + assert (Hlt : id < total) by (apply lookup_lt_Some in He; unfold total; lia).
      repeat split; try (intros Hge; lia); try (intros (r & [=] & _)).
      intros _. exists e. repeat split.
    + assert (Hge : total <= id) by (apply lookup_ge_None_1 in He; unfold total; lia).
      repeat split; try (intros _; eexists; split; reflexivity);
        try (intros _; assumption).
      intros Hlt. lia.
  - intros s env id total.
    rewrite ColdChainTrackerFacts.exec_getLogMeta,
      ColdChainTrackerFacts.exec_getEncryptedTemperature.
    split; [reflexivity|].
    destruct (ColdChainTracker._logs s !! N.to_nat id) as [l|] eqn:Hl.
    + assert (Hlt : id < total) by (apply lookup_lt_Some in Hl; unfold total; lia).
      repeat split; try (intros Hge; lia); try (intros (r & [=] & _)).
      intros _. exists l. repeat split.
    + assert (Hge : total <= id) by (apply lookup_ge_None_1 in Hl; unfold total; lia).
      repeat split; try (intros _; eexists; split; reflexivity);
        try (intros _; assumption).
      intros Hlt. lia.
Qed.

(** Key 2 of three is read; log 3 of three does not exist. *)
Lemma reads_fail_iff_out_of_range_witness :
  FrostKeyChain.exec (H := Toy.primitives) (Scenario.at_time Toy.bob 13)
    (FrostKeyChain.call_getKeyMeta 2) Scenario.keys3 =
  (Ok (FrostKeyChain.ret_meta (Toy.alice, "Password"%string, 12, 12)), Scenario.keys3) /\
  (exists r,
     ColdChainTracker.exec (H := Toy.primitives) (Scenario.at_time Toy.bob 13)
       (ColdChainTracker.call_getLogMeta 3) Scenario.logs3 = (Revert r, Scenario.logs3) /\
     classify r = NotFound).
Proof.
  destruct (reads_fail_iff_out_of_range (H := Toy.primitives)) as (Hkeys & Hlogs).
  split.
  - destruct (Hkeys Scenario.keys3 (Scenario.at_time Toy.bob 13) 2)
      as (_ & _ & _ & Hin & _).
    destruct Hin as (e & He & Hmeta & _); [vm_compute; reflexivity|].
    vm_compute in He. injection He as <-. exact Hmeta.
  - destruct (Hlogs Scenario.logs3 (Scenario.at_time Toy.bob 13) 3)
      as (_ & Hout & _).
    apply Hout. vm_compute. discriminate.
Defined.

(** C6. For an existing record and an [updateKey] call whose sender is not
    the owner stored in the record, the call reverts with "Not the owner"
    (NotOwner) before anything has been done, and the state, with it the
    record and all its fields, is as before. *)
Theorem update_by_non_owner_is_rejected `{Primitives}
    (env : Env) (id : uint256) (encValue : externalEuint64)
    (inputProof signature : bytes) (s : FrostKeyChain.State)
    (e : FrostKeyChain.KeyEntry) :
  FrostKeyChain._keys s !! N.to_nat id = Some e ->
  FrostKeyChain.owner e <> msg_sender env ->
  FrostKeyChain.updateKey env id encValue inputProof signature s =
    (Revert (Error "Not the owner"), s) /\
  FrostKeyChain.exec env
    (FrostKeyChain.call_updateKey id encValue inputProof signature) s =
    (Revert (Error "Not the owner"), s) /\
  classify (Error "Not the owner") = NotOwner /\
  FrostKeyChain._keys
    (FrostKeyChain.exec env
       (FrostKeyChain.call_updateKey id encValue inputProof signature) s).2
    !! N.to_nat id = Some e.
Proof.
  intros He Hne.
  assert (Hlt : (id <? N.of_nat (length (FrostKeyChain._keys s))) = true).
  { apply N.ltb_lt. apply lookup_lt_Some in He. lia. }
  assert (Hown : (FrostKeyChain.owner e =? msg_sender env) = false)
    by now apply N.eqb_neq.
  rewrite FrostKeyChainFacts.updateKey_run, FrostKeyChainFacts.exec_updateKey.
  rewrite Hlt, He, Hown. simpl. repeat split. exact He.
Qed.

(** [bob] tries to update the first key of [alice]. *)
Lemma update_by_non_owner_is_rejected_witness :
  FrostKeyChain.exec (H := Toy.primitives) (Scenario.at_time Toy.bob 20)
    (FrostKeyChain.call_updateKey 0 999 Toy.proof_ok Toy.sig_bob) Scenario.keys3 =
  (Revert (Error "Not the owner"), Scenario.keys3).
Proof.
  apply (update_by_non_owner_is_rejected (H := Toy.primitives)
           (Scenario.at_time Toy.bob 20) 0 999 Toy.proof_ok Toy.sig_bob Scenario.keys3
           {| FrostKeyChain.owner := Toy.alice;
              FrostKeyChain.keyName := "API Key 1";
              FrostKeyChain.encryptedValue := 111;
              FrostKeyChain.createdAt := 10;
              FrostKeyChain.updatedAt := 10 |}).
  - reflexivity.
  - vm_compute. discriminate.
Defined.

(** C8. In every state (the number of records being a [uint256]),
    [getStats] returns the number of stored records, which is what
    [getTotalLogCount] returns, and the number of them whose [isWarning] is
    set; its loop visits every record, and the state is as before. *)
Theorem getStats_counts_the_warnings `{Primitives}
    (s : ColdChainTracker.State) (env : Env) :
  N.of_nat (length (ColdChainTracker._logs s)) <= MAX_UINT256 ->
  ColdChainTracker.exec env ColdChainTracker.call_getStats s =
    (Ok (ColdChainTracker.ret_stats
           (N.of_nat (length (ColdChainTracker._logs s)),
            Spec.flagged_count ColdChainTracker.isWarning (ColdChainTracker._logs s))),
     s) /\
  ColdChainTracker.exec env ColdChainTracker.call_getTotalLogCount s =
    (Ok (ColdChainTracker.ret_uint (N.of_nat (length (ColdChainTracker._logs s)))), s) /\
  (forall gas, (gas <= length (ColdChainTracker._logs s))%nat ->
     ColdChainTracker.getStats_loop gas 0 0 s = (Revert OutOfGas, s)).
Proof.
  intros Hmax. split; [|split].
  - now apply ColdChainTrackerFacts.exec_getStats.
  - apply ColdChainTrackerFacts.exec_getTotalLogCount.
  - intros gas Hgas.
    apply (ColdChainTrackerFacts.getStats_loop_short gas 0 0 s); [lia | lia | assumption | lia].
Qed.

(** The scenario of the specification: three logs, one warning. *)
Lemma getStats_counts_the_warnings_witness :
  ColdChainTracker.exec (H := Toy.primitives) (Scenario.at_time Toy.bob 13)
    ColdChainTracker.call_getStats Scenario.logs3 =
  (Ok (ColdChainTracker.ret_stats (3, 1)), Scenario.logs3).
Proof.
  apply (getStats_counts_the_warnings (H := Toy.primitives) Scenario.logs3
           (Scenario.at_time Toy.bob 13)).
  vm_compute. discriminate.
Defined.

(** C9. Under any sequence of calls a record stays at its id with the
    owner, the name and the creation time it was appended with, so no
    record is deleted; a temperature log never changes at all. A record is
    appended with [updatedAt] equal to [createdAt]. A successful
    [updateKey] replaces the record at its id by the same record with the
    new encrypted value and [updatedAt], and changes neither another
    record nor the owner index. *)
Theorem records_keep_owner_id_createdAt `{Primitives} :
  (forall (txs : list (Env * FrostKeyChain.Call)) (s : FrostKeyChain.State)
          (i : nat) (e : FrostKeyChain.KeyEntry),
     FrostKeyChain._keys s !! i = Some e ->
     exists e', FrostKeyChain._keys (FrostKeyChain.run txs s).2 !! i = Some e' /\
       FrostKeyChain.owner e' = FrostKeyChain.owner e /\
       FrostKeyChain.keyName e' = FrostKeyChain.keyName e /\
       FrostKeyChain.createdAt e' = FrostKeyChain.createdAt e) /\
  (forall (txs : list (Env * ColdChainTracker.Call)) (s : ColdChainTracker.State)
          (i : nat) (l : ColdChainTracker.TemperatureLog),
     ColdChainTracker._logs s !! i = Some l ->
     ColdChainTracker._logs (ColdChainTracker.run txs s).2 !! i = Some l) /\
  (forall env keyName encValue inputProof signature s r s',
     FrostKeyChain.exec env
       (FrostKeyChain.call_storeKey keyName encValue inputProof signature) s = (Ok r, s') ->
     exists e, FrostKeyChain._keys s' = FrostKeyChain._keys s ++ [e] /\
       FrostKeyChain.owner e = msg_sender env /\
       FrostKeyChain.createdAt e = to_uint64 (block_timestamp env) /\
       FrostKeyChain.updatedAt e = FrostKeyChain.createdAt e) /\
  (forall env id encValue inputProof signature s r s',
     FrostKeyChain.exec env
       (FrostKeyChain.call_updateKey id encValue inputProof signature) s = (Ok r, s') ->
     exists e v,
       FrostKeyChain._keys s !! N.to_nat id = Some e /\
       FrostKeyChain._keys s' =
         <[N.to_nat id :=
             {| FrostKeyChain.owner := FrostKeyChain.owner e;
                FrostKeyChain.keyName := FrostKeyChain.keyName e;
                FrostKeyChain.encryptedValue := v;
                FrostKeyChain.createdAt := FrostKeyChain.createdAt e;
                FrostKeyChain.updatedAt := to_uint64 (block_timestamp env) |}]>
           (FrostKeyChain._keys s) /\
       FrostKeyChain._keysOf s' = FrostKeyChain._keysOf s /\
       length (FrostKeyChain._keys s') = length (FrostKeyChain._keys s) /\
       (forall j, j <> N.to_nat id ->
          FrostKeyChain._keys s' !! j = FrostKeyChain._keys s !! j)).
Proof.
  split; [|split; [|split]].
  - intros txs s i e He.
    destruct (FrostKeyChainFacts.preserved_run txs s i e He)
      as (e' & He' & Ho & Hn & Hc & _).
    exists e'. repeat split; assumption.
  - intros txs s i l Hl.
    eapply prefix_lookup_Some; [exact Hl | apply ColdChainTrackerFacts.logs_prefix_run].
  - intros env keyName encValue inputProof signature s r s' Hex.
    apply FrostKeyChainFacts.exec_storeKey_ok in Hex as (_ & _ & _ & v & _ & _ & ->).
    exists (FrostKeyChainPost.new_entry env keyName v). repeat split.
  - intros env id encValue inputProof signature s r s' Hex.
    apply FrostKeyChainFacts.exec_updateKey_ok in Hex
      as (e & v & He & _ & _ & _ & _ & _ & ->).
    exists e, v. repeat split; try assumption.
    + simpl. apply length_insert.
    + intros j Hj. simpl. now apply list_lookup_insert_ne.
Qed.

(** Key 0 after [alice] has updated it. *)
Lemma records_keep_owner_id_createdAt_witness :
  exists e',
    FrostKeyChain._keys
      (FrostKeyChain.run (H := Toy.primitives)
         [(Scenario.at_time Toy.alice 20,
           FrostKeyChain.call_updateKey 0 444 Toy.proof_ok Toy.sig_alice)]
         Scenario.keys3).2 !! 0%nat = Some e' /\
    FrostKeyChain.owner e' = Toy.alice /\
    FrostKeyChain.keyName e' = "API Key 1"%string /\
    FrostKeyChain.createdAt e' = 10.
Proof.
  destruct (records_keep_owner_id_createdAt (H := Toy.primitives)) as (Hkeep & _).
  apply (Hkeep _ Scenario.keys3 0%nat
           {| FrostKeyChain.owner := Toy.alice;
              FrostKeyChain.keyName := "API Key 1";
              FrostKeyChain.encryptedValue := 111;
              FrostKeyChain.createdAt := 10;
              FrostKeyChain.updatedAt := 10 |}).
  reflexivity.
Defined.

(** C10. The digest [_verifyStoreSignature] checks is made of the type
    hash, the sender and the hash of the key name, and of nothing else:
    whether a [storeKey] call passes the checks up to and including the
    verification of the signature does not depend on [encValue] and
    [inputProof], and a signature valid for a sender and a name makes
    every [storeKey] call of that sender with that name succeed, whatever
    payloads the FHE library accepts and however many times. *)
Theorem store_signature_ignores_payload `{Primitives} :
  (forall env keyName signature s,
     let hash :=
       toEthSignedMessageHash
         (keccak256 (abi_encode [FrostKeyChain.STORE_KEY_TYPEHASH; msg_sender env;
                                 keccak256 (list_byte_of_string keyName)])) in
     FrostKeyChain._verifyStoreSignature env keyName signature s =
     (match ECDSA_recover hash signature with
      | inl e => Revert (ECDSAError e)
      | inr signer =>
          if signer =? msg_sender env then Ok tt
          else Revert (Error "Invalid store signature")
      end,
      FrostKeyChain.log (Call_recover hash signature) s)) /\
  (forall env keyName signature s encValue1 inputProof1 encValue2 inputProof2,
     let r1 := (FrostKeyChain.exec env
                  (FrostKeyChain.call_storeKey keyName encValue1 inputProof1 signature)
                  s).1 in
     let r2 := (FrostKeyChain.exec env
                  (FrostKeyChain.call_storeKey keyName encValue2 inputProof2 signature)
                  s).1 in
     (exists r, r <> InvalidInputProof /\ r1 = Revert r /\ r2 = Revert r) \/
     (FrostKeyChainPost.past_authorization r1 /\
      FrostKeyChainPost.past_authorization r2)) /\
  (forall sender keyName signature payloads s,
     0 < bytes_length keyName -> bytes_length keyName <= 100 ->
     ECDSA_recover
       (toEthSignedMessageHash (FrostKeyChain.store_digest sender keyName)) signature =
       inr sender ->
     Forall (fun p : uint256 * externalEuint64 * bytes =>
               FHE_fromExternal sender p.1.2 p.2 <> None) payloads ->
     let txs := FrostKeyChainPost.replay sender keyName signature payloads in
     FrostKeyChainPost.all_ok (FrostKeyChain.run txs s).1 = true /\
     length (FrostKeyChain._keys (FrostKeyChain.run txs s).2) =
       (length (FrostKeyChain._keys s) + length payloads)%nat).
Proof.
  split; [|split].
  - intros env keyName signature s hash. subst hash.
    unfold FrostKeyChain._verifyStoreSignature, FrostKeyChain.recover, bind, modify,
      require, ret, revert, FrostKeyChain.store_digest.
    destruct (ECDSA_recover _ signature) as [e|signer]; [reflexivity|].
    destruct (signer =? msg_sender env); reflexivity.
  - intros env keyName signature s encValue1 inputProof1 encValue2 inputProof2 r1 r2.
    subst r1 r2. rewrite !FrostKeyChainFacts.exec_storeKey.
    unfold FrostKeyChainPost.past_authorization.
    destruct (0 <? bytes_length keyName); cbn [negb];
      [|left; eexists; repeat split; discriminate].
    destruct (bytes_length keyName <=? 100); cbn [negb];
      [|left; eexists; repeat split; discriminate].
    destruct (ECDSA_recover _ signature) as [e|signer];
      [left; eexists; repeat split; discriminate|].
    destruct (signer =? msg_sender env);
      [|left; eexists; repeat split; discriminate].
    right.
    destruct (FHE_fromExternal _ encValue1 inputProof1),
      (FHE_fromExternal _ encValue2 inputProof2); simpl; auto.
  - intros sender keyName signature payloads s Hpos Hmax Hsig Hfhe txs. subst txs.
    revert s. induction Hfhe as [|[[t encValue] inputProof] payloads Hp Hps IH];
      intros s.
    + simpl. split; [reflexivity | lia].
    + unfold FrostKeyChainPost.replay. rewrite map_cons.
      fold (FrostKeyChainPost.replay sender keyName signature payloads).
      rewrite FrostKeyChainFacts.keys_run_cons, FrostKeyChainFacts.exec_storeKey.
      apply N.ltb_lt in Hpos as Hpos'. apply N.leb_le in Hmax as Hmax'.
      rewrite Hpos', Hmax'. cbn [negb].
      unfold FrostKeyChainPost.store_hash. cbn [msg_sender block_timestamp fst snd].
      rewrite Hsig, N.eqb_refl.
      simpl in Hp.
      destruct (FHE_fromExternal sender encValue inputProof) as [v|] eqn:Hv;
        [|congruence].
      cbn [fst snd].
      destruct (IH (FrostKeyChainPost.stored
                      {| msg_sender := sender; block_timestamp := t |}
                      keyName encValue inputProof signature v s)) as [Hok Hlen].
      split.
      * unfold FrostKeyChainPost.all_ok in *. simpl. exact Hok.
      * rewrite Hlen. simpl. rewrite length_app. simpl. lia.
Qed.

(** One signature of [alice] for one name stores three payloads. *)
Lemma store_signature_ignores_payload_witness :
  FrostKeyChainPost.all_ok
    (FrostKeyChain.run (H := Toy.primitives)
       (FrostKeyChainPost.replay Toy.alice "API Key 1" Toy.sig_alice
          [(10, 111, Toy.proof_ok); (10, 222, [x00]); (11, 333, [x01; x02])])
       FrostKeyChain.init).1 = true.
Proof.
  destruct (store_signature_ignores_payload (H := Toy.primitives)) as (_ & _ & Hreplay).
  apply (Hreplay Toy.alice "API Key 1"%string Toy.sig_alice
           [(10, 111, Toy.proof_ok); (10, 222, [x00]); (11, 333, [x01; x02])]
           FrostKeyChain.init).
  - reflexivity.
  - vm_compute. discriminate.
  - reflexivity.
  - repeat constructor; vm_compute; discriminate.
Defined.

(** C2, as amended. An append whose signature recovers to an address other
    than the sender reverts and leaves the state, so the total count and
    every owner's index, as it was; the body itself has written neither
    the array nor the index when it stops. The revert is the one of the
    signature check (AuthorizationError) when the metadata pass their
    validation, and the one of the validation (ValidationError), which
    comes first, when they do not. *)
Theorem append_with_foreign_signature_is_rejected `{Primitives} :
  (forall env keyName encValue inputProof signature s signer,
     ECDSA_recover
       (toEthSignedMessageHash
          (FrostKeyChain.store_digest (msg_sender env) keyName)) signature =
       inr signer ->
     signer <> msg_sender env ->
     exists r,
       FrostKeyChain.exec env
         (FrostKeyChain.call_storeKey keyName encValue inputProof signature) s =
         (Revert r, s) /\
       (0 < bytes_length keyName -> bytes_length keyName <= 100 ->
        r = Error "Invalid store signature" /\ classify r = AuthorizationError) /\
       (bytes_length keyName = 0 \/ 100 < bytes_length keyName ->
        classify r = ValidationError) /\
       (FrostKeyChain._verifyStoreSignature env keyName signature s).1 =
         Revert (Error "Invalid store signature") /\
       FrostKeyChain._keys
         (FrostKeyChain.storeKey env keyName encValue inputProof signature s).2 =
         FrostKeyChain._keys s /\
       FrostKeyChain._keysOf
         (FrostKeyChain.storeKey env keyName encValue inputProof signature s).2 =
         FrostKeyChain._keysOf s) /\
  (forall env location cargo encTemp inputProof isWarning signature s signer,
     ECDSA_recover
       (toEthSignedMessageHash
          (ColdChainTracker.record_digest (msg_sender env) location cargo)) signature =
       inr signer ->
     signer <> msg_sender env ->
     exists r,
       ColdChainTracker.exec env
         (ColdChainTracker.call_recordTemperature location cargo encTemp inputProof
            isWarning signature) s = (Revert r, s) /\
       (0 < bytes_length location -> 0 < bytes_length cargo ->
        r = Error "Invalid record signature" /\ classify r = AuthorizationError) /\
       (bytes_length location = 0 \/ bytes_length cargo = 0 ->
        classify r = ValidationError) /\
       (ColdChainTracker._verifyRecordSignature env location cargo signature s).1 =
         Revert (Error "Invalid record signature") /\
       ColdChainTracker._logs
         (ColdChainTracker.recordTemperature env location cargo encTemp inputProof
            isWarning signature s).2 = ColdChainTracker._logs s /\
       ColdChainTracker._logsOf
         (ColdChainTracker.recordTemperature env location cargo encTemp inputProof
            isWarning signature s).2 = ColdChainTracker._logsOf s).
Proof.
  split.
  - intros env keyName encValue inputProof signature s signer Hrec Hne.
    apply N.eqb_neq in Hne.
    rewrite FrostKeyChainFacts.exec_storeKey, FrostKeyChainFacts.storeKey_run.
    unfold FrostKeyChain._verifyStoreSignature, FrostKeyChain.recover, bind, modify,
      require, ret, revert, FrostKeyChainPost.store_hash.
    rewrite Hrec, Hne. simpl.
    destruct (N.ltb_spec 0 (bytes_length keyName)) as [Hpos|Hzero]; cbn [negb].
    + destruct (N.leb_spec (bytes_length keyName) 100) as [Hle|Hgt]; cbn [negb].
      * eexists. repeat split. intros [Hz|Hl]; lia.
      * eexists. split; [reflexivity|]. repeat split; try reflexivity;
          intros; lia.
    + eexists. split; [reflexivity|]. repeat split; try reflexivity; intros; lia.
  - intros env location cargo encTemp inputProof isWarning signature s signer Hrec Hne.
    apply N.eqb_neq in Hne.
    rewrite ColdChainTrackerFacts.exec_recordTemperature,
      ColdChainTrackerFacts.recordTemperature_run.
    unfold ColdChainTracker._verifyRecordSignature, ColdChainTracker.recover, bind,
      modify, require, ret, revert, ColdChainTrackerPost.record_hash.
    rewrite Hrec, Hne. simpl.
    destruct (N.ltb_spec 0 (bytes_length location)) as [Hpos|Hzero]; cbn [negb].
    + destruct (N.ltb_spec 0 (bytes_length cargo)) as [Hpos'|Hzero']; cbn [negb].
      * eexists. repeat split. intros [Hz|Hl]; lia.
      * eexists. split; [reflexivity|]. repeat split; try reflexivity;
          intros; lia.
    + eexists. split; [reflexivity|]. repeat split; try reflexivity; intros; lia.
Qed.

(** [alice] sends a reading with the signature of [bob]. *)
Lemma append_with_foreign_signature_is_rejected_witness :
  ColdChainTracker.exec (H := Toy.primitives) (Scenario.at_time Toy.alice 13)
    (ColdChainTracker.call_recordTemperature "Shanghai Port" "Frozen Seafood - 500kg"
       180 Toy.proof_ok false Toy.sig_bob) Scenario.logs3 =
  (Revert (Error "Invalid record signature"), Scenario.logs3).
Proof.
  destruct (append_with_foreign_signature_is_rejected (H := Toy.primitives))
    as (_ & Hlogs).
  destruct (Hlogs (Scenario.at_time Toy.alice 13) "Shanghai Port"%string
              "Frozen Seafood - 500kg"%string 180 Toy.proof_ok false Toy.sig_bob
              Scenario.logs3 Toy.bob) as (r & Hex & Hauth & _).
  - reflexivity.
  - vm_compute. discriminate.
  - destruct Hauth as [-> _]; [vm_compute; reflexivity | vm_compute; reflexivity |].
    exact Hex.
Defined.

(** C2, as stated, fails: the sender is [alice], the signature recovers to
    [bob], the key name is empty, and the call reverts with "Key name
    cannot be empty", which is not the AuthorizationError. *)
Lemma append_with_foreign_signature_counterexample :
  (ECDSA_recover (Primitives := Toy.primitives)
     (toEthSignedMessageHash (Primitives := Toy.primitives)
        (FrostKeyChain.store_digest (H := Toy.primitives) Toy.alice ""))
     Toy.sig_bob = inr Toy.bob /\
   Toy.bob <> msg_sender (Scenario.at_time Toy.alice 10)) /\
  FrostKeyChain.exec (H := Toy.primitives) (Scenario.at_time Toy.alice 10)
    (FrostKeyChain.call_storeKey "" 111 Toy.proof_ok Toy.sig_bob) FrostKeyChain.init =
    (Revert (Error "Key name cannot be empty"), FrostKeyChain.init) /\
  ~ (exists r,
       (FrostKeyChain.exec (H := Toy.primitives) (Scenario.at_time Toy.alice 10)
          (FrostKeyChain.call_storeKey "" 111 Toy.proof_ok Toy.sig_bob)
          FrostKeyChain.init).1 = Revert r /\
       classify r = AuthorizationError).
Proof.
  split; [split|split].
  - reflexivity.
  - vm_compute. discriminate.
  - reflexivity.
  - intros (r & Hr & Hc). vm_compute in Hr. injection Hr as <-.
    vm_compute in Hc. discriminate.
Qed.

(** C5, as amended. A successful [updateKey] sets [updatedAt] of the record
    to [uint64(block.timestamp)], the timestamp itself whenever it fits in
    64 bits, which is more than the record had. An [updateKey] of the same
    record at the same timestamp then reverts, before it has done
    anything, and leaves the state as the first left it: with "Cannot update same timestamp" (StaleTimestamp)
    when it comes from the owner, with "Not the owner" (NotOwner), the
    check before, when it comes from someone else. No sequence of calls at
    that timestamp changes the record, and whatever calls follow, the next
    successful update of the record sets a greater [updatedAt]. *)
Theorem second_update_at_same_timestamp_is_rejected `{Primitives}
    (env1 env2 : Env) (id : uint256)
    (encValue1 : externalEuint64) (inputProof1 signature1 : bytes)
    (encValue2 : externalEuint64) (inputProof2 signature2 : bytes)
    (s s1 : FrostKeyChain.State) (r1 : FrostKeyChain.Returned) :
  FrostKeyChain.exec env1
    (FrostKeyChain.call_updateKey id encValue1 inputProof1 signature1) s = (Ok r1, s1) ->
  block_timestamp env2 = block_timestamp env1 ->
  exists e0 e1,
    FrostKeyChain._keys s !! N.to_nat id = Some e0 /\
    FrostKeyChain._keys s1 !! N.to_nat id = Some e1 /\
    FrostKeyChain.updatedAt e1 = to_uint64 (block_timestamp env1) /\
    (block_timestamp env1 < 2 ^ 64 ->
     FrostKeyChain.updatedAt e1 = block_timestamp env1) /\
    FrostKeyChain.updatedAt e0 < FrostKeyChain.updatedAt e1 /\
    (exists r,
       FrostKeyChain.exec env2
         (FrostKeyChain.call_updateKey id encValue2 inputProof2 signature2) s1 =
         (Revert r, s1) /\
       FrostKeyChain.updateKey env2 id encValue2 inputProof2 signature2 s1 =
         (Revert r, s1) /\
       (msg_sender env2 = FrostKeyChain.owner e1 ->
        r = Error "Cannot update same timestamp" /\ classify r = StaleTimestamp) /\
       (msg_sender env2 <> FrostKeyChain.owner e1 ->
        r = Error "Not the owner" /\ classify r = NotOwner)) /\
    (forall txs : list (Env * FrostKeyChain.Call),
       Forall (fun tx : Env * FrostKeyChain.Call =>
                 block_timestamp tx.1 = block_timestamp env1) txs ->
       FrostKeyChain._keys (FrostKeyChain.run txs s1).2 !! N.to_nat id = Some e1) /\
    (forall (txs : list (Env * FrostKeyChain.Call)) env3 encValue3 inputProof3
            signature3 r3 s3,
       FrostKeyChain.exec env3
         (FrostKeyChain.call_updateKey id encValue3 inputProof3 signature3)
         (FrostKeyChain.run txs s1).2 = (Ok r3, s3) ->
       exists e3, FrostKeyChain._keys s3 !! N.to_nat id = Some e3 /\
         FrostKeyChain.updatedAt e1 < FrostKeyChain.updatedAt e3).
Proof.
  intros Hex Ht.
  apply FrostKeyChainFacts.exec_updateKey_ok in Hex
    as (e0 & v & He0 & Ho & Hlt & _ & _ & _ & ->).
  assert (Hin : (N.to_nat id < length (FrostKeyChain._keys s))%nat)
    by now apply lookup_lt_Some in He0.
  assert (He1 :
    FrostKeyChain._keys
      (FrostKeyChainPost.updated env1 id encValue1 inputProof1 signature1 v e0 s)
      !! N.to_nat id = Some (FrostKeyChainPost.updated_entry env1 v e0)).
  { simpl. now apply list_lookup_insert_eq. }
  exists e0, (FrostKeyChainPost.updated_entry env1 v e0).
  split; [assumption|]. split; [assumption|]. split; [reflexivity|].
  split; [intros Hfit; simpl; now apply to_uint64_small|].
  split; [assumption|]. split; [|split].
  - rewrite FrostKeyChainFacts.exec_updateKey, FrostKeyChainFacts.updateKey_run, He1.
    assert (Hlen : (id <? N.of_nat
              (length (FrostKeyChain._keys
                 (FrostKeyChainPost.updated env1 id encValue1 inputProof1 signature1
                    v e0 s)))) = true).
    { apply N.ltb_lt. simpl. rewrite length_insert. lia. }
    rewrite Hlen. cbn [negb]. simpl FrostKeyChain.owner.
    simpl FrostKeyChain.updatedAt. rewrite Ht, N.ltb_irrefl. cbn [negb].
    destruct (N.eqb_spec (FrostKeyChain.owner e0) (msg_sender env2)) as [Heq|Hneq];
      cbn [negb].
    + eexists. split; [reflexivity|]. split; [reflexivity|]. split.
      * intros _. split; reflexivity.
      * intros Hne. congruence.
    + eexists. split; [reflexivity|]. split; [reflexivity|]. split.
      * intros Heq. congruence.
      * intros _. split; reflexivity.
  - intros txs Htxs.
    now apply (FrostKeyChainFacts.frozen_run txs _ _ _ (block_timestamp env1)).
  - intros txs env3 encValue3 inputProof3 signature3 r3 s3 Hex3.
    destruct (FrostKeyChainFacts.preserved_run txs _ _ _ He1)
      as (e2 & He2 & _ & _ & _ & Hle).
    apply FrostKeyChainFacts.exec_updateKey_ok in Hex3
      as (e2' & v3 & He2' & _ & Hlt3 & _ & _ & _ & ->).
    assert (e2' = e2) as -> by congruence.
    exists (FrostKeyChainPost.updated_entry env3 v3 e2). split.
    + simpl. apply list_lookup_insert_eq. now apply lookup_lt_Some in He2.
    + simpl in *. lia.
Qed.

(** [alice] updates key 0 twice at timestamp 20. *)
Lemma second_update_at_same_timestamp_is_rejected_witness :
  FrostKeyChain.exec (H := Toy.primitives) (Scenario.at_time Toy.alice 20)
    (FrostKeyChain.call_updateKey 0 555 Toy.proof_ok Toy.sig_alice)
    (FrostKeyChain.exec (H := Toy.primitives) (Scenario.at_time Toy.alice 20)
       (FrostKeyChain.call_updateKey 0 444 Toy.proof_ok Toy.sig_alice)
       Scenario.keys3).2 =
  (Revert (Error "Cannot update same timestamp"),
   (FrostKeyChain.exec (H := Toy.primitives) (Scenario.at_time Toy.alice 20)
      (FrostKeyChain.call_updateKey 0 444 Toy.proof_ok Toy.sig_alice)
      Scenario.keys3).2).
Proof.
  destruct (second_update_at_same_timestamp_is_rejected (H := Toy.primitives)
              (Scenario.at_time Toy.alice 20) (Scenario.at_time Toy.alice 20) 0
              444 Toy.proof_ok Toy.sig_alice 555 Toy.proof_ok Toy.sig_alice
              Scenario.keys3
              (FrostKeyChain.exec (H := Toy.primitives) (Scenario.at_time Toy.alice 20)
                 (FrostKeyChain.call_updateKey 0 444 Toy.proof_ok Toy.sig_alice)
                 Scenario.keys3).2
              FrostKeyChain.ret_unit)
    as (e0 & e1 & _ & He1 & _ & _ & _ & (r & Hex & _ & Howner & _) & _ & _).
  - reflexivity.
  - reflexivity.
  - vm_compute in He1. injection He1 as <-.
    destruct Howner as [-> _]; [reflexivity|]. exact Hex.
Defined.

(** C5, as stated, fails: [alice] updates her key at timestamp 20, [bob]
    calls [updateKey] on it at the same timestamp, and his call reverts
    with "Not the owner", which is not the StaleTimestamp. *)
Lemma second_update_at_same_timestamp_counterexample :
  (FrostKeyChain.exec (H := Toy.primitives) (Scenario.at_time Toy.alice 20)
     (FrostKeyChain.call_updateKey 0 444 Toy.proof_ok Toy.sig_alice)
     Scenario.keys3).1 = Ok FrostKeyChain.ret_unit /\
  FrostKeyChain.exec (H := Toy.primitives) (Scenario.at_time Toy.bob 20)
    (FrostKeyChain.call_updateKey 0 555 Toy.proof_ok Toy.sig_bob)
    (FrostKeyChain.exec (H := Toy.primitives) (Scenario.at_time Toy.alice 20)
       (FrostKeyChain.call_updateKey 0 444 Toy.proof_ok Toy.sig_alice)
       Scenario.keys3).2 =
  (Revert (Error "Not the owner"),
   (FrostKeyChain.exec (H := Toy.primitives) (Scenario.at_time Toy.alice 20)
      (FrostKeyChain.call_updateKey 0 444 Toy.proof_ok Toy.sig_alice)
      Scenario.keys3).2) /\
  ~ (exists r,
       (FrostKeyChain.exec (H := Toy.primitives) (Scenario.at_time Toy.bob 20)
          (FrostKeyChain.call_updateKey 0 555 Toy.proof_ok Toy.sig_bob)
          (FrostKeyChain.exec (H := Toy.primitives) (Scenario.at_time Toy.alice 20)
             (FrostKeyChain.call_updateKey 0 444 Toy.proof_ok Toy.sig_alice)
             Scenario.keys3).2).1 = Revert r /\
       classify r = StaleTimestamp).
Proof.
  split; [|split].
  - reflexivity.
  - reflexivity.
  - intros (r & Hr & Hc). vm_compute in Hr. injection Hr as <-.
    vm_compute in Hc. discriminate.
Qed.

(** C7, as amended. [storeKey] checks that the key name is not empty and
    not longer than 100 bytes, [recordTemperature] that the location and
    the cargo are not empty, and they check nothing else of the metadata:
    [recordTemperature] has no length limit. A call that fails these checks
    reverts with their message (ValidationError) whatever its signature
    and proof are, with no signature recovered, no proof ingested and
    nothing written when the body stops; the state, and the total count,
    are as before. *)
Theorem metadata_is_validated_first `{Primitives} :
  (forall env keyName encValue inputProof signature s,
     bytes_length keyName = 0 \/ 100 < bytes_length keyName ->
     exists msg,
       FrostKeyChain.storeKey env keyName encValue inputProof signature s =
         (Revert (Error msg), s) /\
       FrostKeyChain.exec env
         (FrostKeyChain.call_storeKey keyName encValue inputProof signature) s =
         (Revert (Error msg), s) /\
       classify (Error msg) = ValidationError) /\
  (forall env keyName encValue inputProof signature s r,
     (FrostKeyChain.exec env
        (FrostKeyChain.call_storeKey keyName encValue inputProof signature) s).1 =
       Revert r ->
     classify r = ValidationError ->
     bytes_length keyName = 0 \/ 100 < bytes_length keyName) /\
  (forall env location cargo encTemp inputProof isWarning signature s,
     bytes_length location = 0 \/ bytes_length cargo = 0 ->
     exists msg,
       ColdChainTracker.recordTemperature env location cargo encTemp inputProof
         isWarning signature s = (Revert (Error msg), s) /\
       ColdChainTracker.exec env
         (ColdChainTracker.call_recordTemperature location cargo encTemp inputProof
            isWarning signature) s = (Revert (Error msg), s) /\
       classify (Error msg) = ValidationError) /\
  (forall env location cargo encTemp inputProof isWarning signature s r,
     (ColdChainTracker.exec env
        (ColdChainTracker.call_recordTemperature location cargo encTemp inputProof
           isWarning signature) s).1 = Revert r ->
     classify r = ValidationError ->
     bytes_length location = 0 \/ bytes_length cargo = 0).
Proof.
  split; [|split; [|split]].
  - intros env keyName encValue inputProof signature s Hbad.
    rewrite FrostKeyChainFacts.storeKey_run, FrostKeyChainFacts.exec_storeKey.
    destruct (N.ltb_spec 0 (bytes_length keyName)) as [Hpos|Hzero]; cbn [negb].
    + destruct (N.leb_spec (bytes_length keyName) 100) as [Hle|Hgt]; cbn [negb]; [lia|].
      eexists. repeat split.
    + eexists. repeat split.
  - intros env keyName encValue inputProof signature s r.
    rewrite FrostKeyChainFacts.exec_storeKey.
    destruct (N.ltb_spec 0 (bytes_length keyName)) as [Hpos|Hzero]; cbn [negb];
      [|intros _ _; left; lia].
    destruct (N.leb_spec (bytes_length keyName) 100) as [Hle|Hgt]; cbn [negb];
      [|intros _ _; now right].
    destruct (ECDSA_recover _ signature) as [e|signer].
    + intros [= <-]. discriminate.
    + destruct (signer =? msg_sender env).
      * destruct (FHE_fromExternal _ encValue inputProof); [discriminate|].
        intros [= <-]. discriminate.
      * intros [= <-]. discriminate.
  - intros env location cargo encTemp inputProof isWarning signature s Hbad.
    rewrite ColdChainTrackerFacts.recordTemperature_run,
      ColdChainTrackerFacts.exec_recordTemperature.
    destruct (N.ltb_spec 0 (bytes_length location)) as [Hpos|Hzero]; cbn [negb].
    + destruct (N.ltb_spec 0 (bytes_length cargo)) as [Hpos'|Hzero']; cbn [negb]; [lia|].
      eexists. repeat split.
    + eexists. repeat split.
  - intros env location cargo encTemp inputProof isWarning signature s r.
    rewrite ColdChainTrackerFacts.exec_recordTemperature.
    destruct (N.ltb_spec 0 (bytes_length location)) as [Hpos|Hzero]; cbn [negb];
      [|intros _ _; left; lia].
    destruct (N.ltb_spec 0 (bytes_length cargo)) as [Hpos'|Hzero']; cbn [negb];
      [|intros _ _; right; lia].
    destruct (ECDSA_recover _ signature) as [e|signer].
    + intros [= <-]. discriminate.
    + destruct (signer =? msg_sender env).
      * destruct (FHE_fromExternal _ encTemp inputProof); [discriminate|].
        intros [= <-]. discriminate.
      * intros [= <-]. discriminate.
Qed.

(** A key name of 101 bytes, with a valid signature and proof. *)
Lemma metadata_is_validated_first_witness :
  exists msg,
    FrostKeyChain.exec (H := Toy.primitives) (Scenario.at_time Toy.alice 13)
      (FrostKeyChain.call_storeKey (Long.letters 101) 111 Toy.proof_ok Toy.sig_alice)
      Scenario.keys3 = (Revert (Error msg), Scenario.keys3) /\
    classify (Error msg) = ValidationError.
Proof.
  destruct (metadata_is_validated_first (H := Toy.primitives)) as (Hkeys & _).
  destruct (Hkeys (Scenario.at_time Toy.alice 13) (Long.letters 101) 111 Toy.proof_ok
              Toy.sig_alice Scenario.keys3) as (msg & _ & Hex & Hc).
  - right. vm_compute. reflexivity.
  - exists msg. split; assumption.
Defined.

(** C7, as stated, fails for the lengths of [location] and [cargo]:
    [recordTemperature] accepts a location of 101 bytes, one more than
    [storeKey] allows for a key name, and no limit at all makes it reject a
    location for its length. *)
Lemma metadata_length_limit_counterexample :
  (bytes_length (Long.letters 101) = 101 /\
   ColdChainTracker.exec (H := Toy.primitives) (Scenario.at_time Toy.alice 10)
     (ColdChainTracker.call_recordTemperature (Long.letters 101) "Frozen Seafood"
        180 Toy.proof_ok false Toy.sig_alice) ColdChainTracker.init =
   (Ok ColdChainTracker.ret_unit,
    ColdChainTrackerPost.recorded (H := Toy.primitives) (Scenario.at_time Toy.alice 10)
      (Long.letters 101) "Frozen Seafood" 180 Toy.proof_ok false Toy.sig_alice 180
      ColdChainTracker.init)) /\
  ~ (exists limit : uint256,
       forall env location cargo encTemp inputProof isWarning signature s,
         limit < bytes_length location ->
         exists r,
           (ColdChainTracker.exec (H := Toy.primitives) env
              (ColdChainTracker.call_recordTemperature location cargo encTemp
                 inputProof isWarning signature) s).1 = Revert r /\
           classify r = ValidationError).
Proof.
  split; [split|].
  - reflexivity.
  - vm_compute. reflexivity.
  - intros (limit & Hlimit).
    destruct (Hlimit (Scenario.at_time Toy.alice 10)
                (Long.letters (S (N.to_nat limit))) "Frozen Seafood"%string
                180 Toy.proof_ok false Toy.sig_alice ColdChainTracker.init)
      as (r & Hr & _).
    + unfold bytes_length, Long.letters.
      rewrite list_byte_of_string_of_list_byte, repeat_length. lia.
    + rewrite ColdChainTrackerFacts.exec_recordTemperature in Hr.
      assert (Hlen : (0 <? bytes_length (Long.letters (S (N.to_nat limit)))) = true).
      { apply N.ltb_lt. unfold bytes_length, Long.letters.
        rewrite list_byte_of_string_of_list_byte, repeat_length. lia. }
      rewrite Hlen in Hr. cbn [negb] in Hr.
      change (0 <? bytes_length "Frozen Seafood") with true in Hr. cbn [negb] in Hr.
      discriminate Hr.
Qed.

(** * Further properties of the two contracts *)

(** X1. An [updateKey] on an id that is not below the total count reverts
    with "Key does not exist" (NotFound), whoever sends it and whatever
    it carries, before anything has been done. *)
Theorem update_of_missing_key_is_rejected `{Primitives}
    (env : Env) (id : uint256) (encValue : externalEuint64)
    (inputProof signature : bytes) (s : FrostKeyChain.State) :
  N.of_nat (length (FrostKeyChain._keys s)) <= id ->
  FrostKeyChain.updateKey env id encValue inputProof signature s =
    (Revert (Error "Key does not exist"), s) /\
  FrostKeyChain.exec env
    (FrostKeyChain.call_updateKey id encValue inputProof signature) s =
    (Revert (Error "Key does not exist"), s) /\
  classify (Error "Key does not exist") = NotFound.
Proof.
  intros Hge.
  rewrite FrostKeyChainFacts.updateKey_run, FrostKeyChainFacts.exec_updateKey.
  destruct (N.ltb_spec id (N.of_nat (length (FrostKeyChain._keys s)))) as [Hlt|_];
    [lia|].
  repeat split.
Qed.

(** Key 3 of three keys. *)
Lemma update_of_missing_key_is_rejected_witness :
  FrostKeyChain.exec (H := Toy.primitives) (Scenario.at_time Toy.alice 20)
    (FrostKeyChain.call_updateKey 3 444 Toy.proof_ok Toy.sig_alice) Scenario.keys3 =
  (Revert (Error "Key does not exist"), Scenario.keys3).
Proof.
  apply (update_of_missing_key_is_rejected (H := Toy.primitives)
           (Scenario.at_time Toy.alice 20) 3 444 Toy.proof_ok Toy.sig_alice
           Scenario.keys3).
  vm_compute. discriminate.
Defined.

(** X2. An append whose metadata and signature pass and whose input proof
    [FHE.fromExternal] rejects reverts with the error of the FHE library
    (InvalidCiphertextProof); the body has written neither the array nor
    the index when it stops, and the state is as before. *)
Theorem rejected_input_proof_is_atomic `{Primitives} :
  (forall env keyName encValue inputProof signature s,
     0 < bytes_length keyName -> bytes_length keyName <= 100 ->
     ECDSA_recover
       (toEthSignedMessageHash
          (FrostKeyChain.store_digest (msg_sender env) keyName)) signature =
       inr (msg_sender env) ->
     FHE_fromExternal (msg_sender env) encValue inputProof = None ->
     FrostKeyChain.exec env
       (FrostKeyChain.call_storeKey keyName encValue inputProof signature) s =
       (Revert InvalidInputProof, s) /\
     classify InvalidInputProof = InvalidCiphertextProof /\
     FrostKeyChain._keys
       (FrostKeyChain.storeKey env keyName encValue inputProof signature s).2 =
       FrostKeyChain._keys s /\
     FrostKeyChain._keysOf
       (FrostKeyChain.storeKey env keyName encValue inputProof signature s).2 =
       FrostKeyChain._keysOf s) /\
  (forall env location cargo encTemp inputProof isWarning signature s,
     0 < bytes_length location -> 0 < bytes_length cargo ->
     ECDSA_recover
       (toEthSignedMessageHash
          (ColdChainTracker.record_digest (msg_sender env) location cargo)) signature =
       inr (msg_sender env) ->
     FHE_fromExternal (msg_sender env) encTemp inputProof = None ->
     ColdChainTracker.exec env
       (ColdChainTracker.call_recordTemperature location cargo encTemp inputProof
          isWarning signature) s = (Revert InvalidInputProof, s) /\
     classify InvalidInputProof = InvalidCiphertextProof /\
     ColdChainTracker._logs
       (ColdChainTracker.recordTemperature env location cargo encTemp inputProof
          isWarning signature s).2 = ColdChainTracker._logs s /\
     ColdChainTracker._logsOf
       (ColdChainTracker.recordTemperature env location cargo encTemp inputProof
          isWarning signature s).2 = ColdChainTracker._logsOf s).
Proof.
  split.
  - intros env keyName encValue inputProof signature s Hpos Hmax Hrec Hfhe.
    apply N.ltb_lt in Hpos. apply N.leb_le in Hmax.
    rewrite FrostKeyChainFacts.exec_storeKey, FrostKeyChainFacts.storeKey_run.
    unfold FrostKeyChainPost.store_hash.
    rewrite Hpos, Hmax, Hrec, Hfhe, N.eqb_refl. repeat split.
  - intros env location cargo encTemp inputProof isWarning signature s
      Hloc Hcargo Hrec Hfhe.
    apply N.ltb_lt in Hloc, Hcargo.
    rewrite ColdChainTrackerFacts.exec_recordTemperature,
      ColdChainTrackerFacts.recordTemperature_run.
    unfold ColdChainTrackerPost.record_hash.
    rewrite Hloc, Hcargo, Hrec, Hfhe, N.eqb_refl. repeat split.
Qed.

(** A reading of [alice] with an empty input proof. *)
Lemma rejected_input_proof_is_atomic_witness :
  ColdChainTracker.exec (H := Toy.primitives) (Scenario.at_time Toy.alice 13)
    (ColdChainTracker.call_recordTemperature "Shanghai Port" "Frozen Seafood - 500kg"
       180 [] false Toy.sig_alice) Scenario.logs3 =
  (Revert InvalidInputProof, Scenario.logs3).
Proof.
  destruct (rejected_input_proof_is_atomic (H := Toy.primitives)) as (_ & Hlogs).
  apply (Hlogs (Scenario.at_time Toy.alice 13) "Shanghai Port"%string
           "Frozen Seafood - 500kg"%string 180 [] false Toy.sig_alice Scenario.logs3).
  - vm_compute. reflexivity.
  - vm_compute. reflexivity.
  - reflexivity.
  - reflexivity.
Defined.
